(** * color_utils: a shallow embedding of [content/utils/color_utils.py]

    The module holds five functions over NumPy arrays: [_ensure_u8_3c],
    [_mse], [espacio_color], [convertir_espacio_color] and [modificar_canal].
    They are embedded here as Rocq functions over a small model of NumPy
    arrays and Python floats, and the properties the specification states
    about them are proved, or refuted on a concrete array.

    Conventions of the embedding.
    - A Python [float] is a [pyfloat]: NaN, one of the two infinities, or a
      finite value carried as an exact rational.  Comparisons, [min]/[max]
      and the propagation of NaN follow IEEE 754 as NumPy does.  Signed
      zeros are not distinguished.
    - The conversion to [float32] and the product by 255.0 of
      [_ensure_u8_3c] round to the nearest value of the binary format, ties
      to even, as NumPy does.  The arithmetic of [_mse] and of
      [modificar_canal] on the [float32] copies ([+], [-], [*], the mean) is
      the exact one: the statements about it are on channels of integers of
      [0, 255], and they are equalities where binary32 computes the exact
      result too, and inequalities between stored integers otherwise.
    - Exceptions are values: a function that can raise returns a [result].
    - OpenCV ([cv2.cvtColor]) is an external collaborator: a variable of the
      sections.  A theorem holds for all its behaviours, unless it states a
      hypothesis on it.  So are the two corners that NumPy leaves to the
      shapes and to the platform: the broadcast of two different shapes and
      the conversion to [uint8] of a value outside its range. *)

From Stdlib Require Import ZArith QArith Qround Qreduction List String Ascii Bool Lia Lqa.
From Stdlib Require Import DecimalString.
From Stdlib Require Import Qabs.
Import ListNotations.

Local Open Scope Q_scope.
Local Open Scope string_scope.

(** ** Python floats *)

Inductive pyfloat : Type :=
| NaN
| NegInf
| Fin (q : Q)
| PosInf.

Definition of_Z (z : Z) : pyfloat := Fin (inject_Z z).

Definition is_nan (x : pyfloat) : bool :=
  match x with NaN => true | _ => false end.

(** [x <= y] on floats: false as soon as one side is NaN. *)
Definition fle (x y : pyfloat) : bool :=
  match x, y with
  | NaN, _ | _, NaN => false
  | NegInf, _ => true
  | _, PosInf => true
  | Fin a, Fin b => Qle_bool a b
  | _, _ => false
  end.

(** [x < y] on floats. *)
Definition flt (x y : pyfloat) : bool :=
  match x, y with
  | NaN, _ | _, NaN => false
  | NegInf, NegInf => false
  | NegInf, _ => true
  | PosInf, _ => false
  | Fin _, PosInf => true
  | Fin a, Fin b => negb (Qle_bool b a)
  | Fin _, NegInf => false
  end.

Definition fneg (x : pyfloat) : pyfloat :=
  match x with
  | NaN => NaN
  | NegInf => PosInf
  | PosInf => NegInf
  | Fin q => Fin (Qred (- q))
  end.

Definition fadd (x y : pyfloat) : pyfloat :=
  match x, y with
  | NaN, _ | _, NaN => NaN
  | PosInf, NegInf | NegInf, PosInf => NaN
  | PosInf, _ | _, PosInf => PosInf
  | NegInf, _ | _, NegInf => NegInf
  | Fin a, Fin b => Fin (Qred (a + b))
  end.

Definition fsub (x y : pyfloat) : pyfloat := fadd x (fneg y).

(** The sign of a finite value, as [Lt | Eq | Gt] against zero. *)
Definition Qsign (q : Q) : comparison := (Qnum q ?= 0)%Z.

Definition inf_signed (c : comparison) : pyfloat :=
  match c with Lt => NegInf | Eq => NaN | Gt => PosInf end.

Definition fmul (x y : pyfloat) : pyfloat :=
  match x, y with
  | NaN, _ | _, NaN => NaN
  | Fin a, Fin b => Fin (Qred (a * b))
  | PosInf, Fin q | Fin q, PosInf => inf_signed (Qsign q)
  | NegInf, Fin q | Fin q, NegInf => inf_signed (CompOpp (Qsign q))
  | PosInf, PosInf | NegInf, NegInf => PosInf
  | PosInf, NegInf | NegInf, PosInf => NegInf
  end.

(** Division by a positive element count, as [np.mean] does. *)
Definition fdiv_count (x : pyfloat) (n : nat) : pyfloat :=
  match x with
  | Fin q => Fin (Qred (q / inject_Z (Z.of_nat n)))
  | _ => x
  end.

(** Round half to even, to an integer. *)
Definition round_half_even (q : Q) : Z :=
  let f := Qfloor q in
  match Qcompare (q - inject_Z f) (1 # 2) with
  | Lt => f
  | Gt => (f + 1)%Z
  | Eq => if Z.even f then f else (f + 1)%Z
  end.

(** *** Binary formats *)

(** [2 ^ z] as a rational. *)
Definition pow2 (z : Z) : Q :=
  match z with
  | Z0 => 1
  | Zpos p => inject_Z (Z.pow_pos 2 p)
  | Zneg p => 1 # (Pos.pow 2 p)
  end.

(** The binary exponent of a rational that is not zero: the greatest [e]
    with [2 ^ e <= |q|]. *)
Definition exponente (q : Q) : Z :=
  let l := (Z.log2 (Z.abs (Qnum q)) - Z.log2 (Zpos (Qden q)))%Z in
  if Qle_bool (pow2 l) (Qabs q) then l else (l - 1)%Z.

(** The value of the IEEE 754 binary format with [p] significant digits
    and greatest exponent [emax] nearest to [q], ties to even: a multiple
    of [2 ^ (e - p + 1)] for [e] the exponent of [q], of the least
    subnormal [2 ^ (2 - emax - p)] below the normal range, and the
    infinity of the sign of [q] from [2 ^ (emax + 1)] on. *)
Definition redondeo (p emax : Z) (q : Q) : pyfloat :=
  let x := Z.max (exponente q - (p - 1)) (2 - emax - p) in
  let r := inject_Z (round_half_even (q / pow2 x)) * pow2 x in
  if Qle_bool (pow2 (emax + 1)) (Qabs r) then inf_signed (Qsign q) else Fin (Qred r).

(** The conversion to [np.float32] (binary32) and to [np.float64]
    (binary64, Python's [float]). *)
Definition binary32 (x : pyfloat) : pyfloat :=
  match x with
  | Fin q => redondeo 24 127 q
  | _ => x
  end.

Definition binary64 (x : pyfloat) : pyfloat :=
  match x with
  | Fin q => redondeo 53 1023 q
  | _ => x
  end.

(** Python's [round(x, ndigits)] on a float: the decimal with [ndigits]
    digits nearest to [x], ties to even; NaN and the infinities are
    returned as they are.  (CPython returns the double nearest to that
    decimal; the decimal itself is kept here.) *)
Definition py_round (x : pyfloat) (ndigits : nat) : pyfloat :=
  match x with
  | Fin q =>
      let p := (10 ^ Z.of_nat ndigits)%Z in
      Fin (Qred (inject_Z (round_half_even (q * inject_Z p)) / inject_Z p))
  | _ => x
  end.

(** [ndarray.round()] / [np.rint]: half to even, elementwise. *)
Definition np_round (x : pyfloat) : pyfloat :=
  match x with
  | Fin q => of_Z (round_half_even q)
  | _ => x
  end.

(** [min(max(q, lo), hi)] on rationals. *)
Definition Qclip (lo hi q : Q) : Q :=
  if Qle_bool lo q then (if Qle_bool q hi then q else hi) else lo.

(** [np.clip(x, lo, hi)] on one element, [lo] and [hi] finite. *)
Definition np_clip (lo hi : Q) (x : pyfloat) : pyfloat :=
  match x with
  | NaN => NaN
  | NegInf => Fin lo
  | PosInf => Fin hi
  | Fin q => Fin (Qclip lo hi q)
  end.

(** The double nearest to [1.0 + 1e-6] and the double [1.1], exactly. *)
Definition umbral_unidad : pyfloat := Fin (4503604130970123 # 4503599627370496).
Definition umbral_sv : pyfloat := Fin (2476979795053773 # 2251799813685248).

(** ** Exceptions *)

Inductive exn : Type :=
| ValueError (msg : string)
| cv2_error (msg : string).

Inductive result (A : Type) : Type :=
| Ok (a : A)
| Raise (e : exn).
Arguments Ok {A} a.
Arguments Raise {A} e.

Definition bind {A B : Type} (r : result A) (k : A -> result B) : result B :=
  match r with
  | Ok a => k a
  | Raise e => Raise e
  end.

Notation "x <- e ;; k" := (bind e (fun x => k))
  (at level 61, e at next level, right associativity).

(** ** NumPy arrays *)

(** [int32] stands for the integer dtypes other than [uint8]. *)
Inductive np_dtype : Type := uint8 | int32 | float32 | float64.

Definition dtype_eqb (a b : np_dtype) : bool :=
  match a, b with
  | uint8, uint8 | int32, int32 | float32, float32 | float64, float64 => true
  | _, _ => false
  end.

(** [np.issubdtype(dtype, np.floating)] *)
Definition is_floating (d : np_dtype) : bool :=
  match d with float32 | float64 => true | _ => false end.

(** [str(dtype)] *)
Definition dtype_str (d : np_dtype) : string :=
  match d with
  | uint8 => "uint8"
  | int32 => "int32"
  | float32 => "float32"
  | float64 => "float64"
  end.

(** An array: its dtype, its shape and its elements in C order. *)
Record ndarray : Type := mk_ndarray {
  dtype : np_dtype;
  shape : list nat;
  data : list pyfloat
}.

Definition ndim (a : ndarray) : nat := List.length (shape a).

(** [a.shape[k]] for a [k] within [ndim]. *)
Definition shape_at (a : ndarray) (k : nat) : nat := nth k (shape a) 0%nat.

(** [str(n)] for a natural number. *)
Definition str_nat (n : nat) : string := NilEmpty.string_of_uint (Nat.to_uint n).

Fixpoint str_dims (l : list nat) : string :=
  match l with
  | [] => ""
  | [n] => str_nat n
  | n :: r => (str_nat n ++ ", " ++ str_dims r)%string
  end.

(** [str(shape)]: Python's rendering of a tuple of ints. *)
Definition str_shape (l : list nat) : string :=
  match l with
  | [] => "()"
  | [n] => ("(" ++ str_nat n ++ ",)")%string
  | _ => ("(" ++ str_dims l ++ ")")%string
  end.

(** An element is a valid [uint8] value: an integer of [0, 255]. *)
Definition is_uint8_val (x : pyfloat) : bool :=
  match x with
  | Fin q => (Qden q =? 1)%positive && (0 <=? Qnum q)%Z && (Qnum q <=? 255)%Z
  | _ => false
  end.

(** An element is an integer. *)
Definition is_int_val (x : pyfloat) : bool :=
  match x with
  | Fin q => (Qden q =? 1)%positive
  | _ => false
  end.

(** The array holds as many elements as its shape says, and elements of
    its dtype. *)
Definition well_formed (a : ndarray) : bool :=
  (List.length (data a) =? fold_right Nat.mul 1%nat (shape a))%nat &&
  match dtype a with
  | uint8 => forallb is_uint8_val (data a)
  | int32 => forallb is_int_val (data a)
  | _ => true
  end.

(** NumPy's message for a reduction without identity on no element. *)
Definition zero_size (op : string) : string :=
  "zero-size array to reduction operation " ++ op ++ " which has no identity".

(** [np.minimum] / [np.maximum]: NaN wins. *)
Definition fmin2 (a b : pyfloat) : pyfloat :=
  match a, b with
  | NaN, _ | _, NaN => NaN
  | _, _ => if fle a b then a else b
  end.

Definition fmax2 (a b : pyfloat) : pyfloat :=
  match a, b with
  | NaN, _ | _, NaN => NaN
  | _, _ => if fle a b then b else a
  end.

(** [np.fmax]: NaN loses. *)
Definition fmax_nan (a b : pyfloat) : pyfloat :=
  match a, b with
  | NaN, _ => b
  | _, NaN => a
  | _, _ => if fle a b then b else a
  end.

(** [float(np.min(a))]: raises on an array with no element. *)
Definition np_min (l : list pyfloat) : result pyfloat :=
  match l with
  | [] => Raise (ValueError (zero_size "minimum"))
  | x :: r => Ok (fold_left fmin2 r x)
  end.

Definition np_max (l : list pyfloat) : result pyfloat :=
  match l with
  | [] => Raise (ValueError (zero_size "maximum"))
  | x :: r => Ok (fold_left fmax2 r x)
  end.

(** [float(np.nanmax(a))]: the maximum of the elements that are not NaN
    (NaN when all are); raises on an array with no element. *)
Definition np_nanmax (l : list pyfloat) : result pyfloat :=
  match l with
  | [] => Raise (ValueError (zero_size "fmax"))
  | x :: r => Ok (fold_left fmax_nan r x)
  end.

(** [np.mean(a)]: NaN on an array with no element (NumPy only warns). *)
Definition np_mean (l : list pyfloat) : pyfloat :=
  match l with
  | [] => NaN
  | _ => fdiv_count (fold_left fadd l (of_Z 0)) (List.length l)
  end.

(** [img[..., i]] of an array whose last axis has size 3: the [i]-th
    component of every pixel. *)
Fixpoint canal (i : nat) (l : list pyfloat) : list pyfloat :=
  match l with
  | c0 :: c1 :: c2 :: r => nth i [c0; c1; c2] NaN :: canal i r
  | _ => []
  end.

(** Truncation toward zero, the C conversion of a float to an integer. *)
Definition trunc (q : Q) : Z := Z.quot (Qnum q) (Zpos (Qden q)).

(** [a.astype(np.float32)] on one element: the nearest binary32 value,
    which is the element itself for a [uint8] or a [float32] element, and
    an infinity for a [float64] element beyond the binary32 range. *)
Definition astype_float32 (x : pyfloat) : pyfloat := binary32 x.

(** [x * 255.0] on one element of an array of dtype [d]: NumPy computes
    the product in [float32] for a [float32] array and in [float64] for
    any other ([int32] included, where it is exact). *)
Definition por_255 (d : np_dtype) (x : pyfloat) : pyfloat :=
  match d with
  | float32 => binary32 (fmul x (of_Z 255))
  | _ => binary64 (fmul x (of_Z 255))
  end.

(** ** OpenCV's conversion codes and the result of classification *)

Inductive ColorConversionCodes : Type :=
| COLOR_BGR2HSV
| COLOR_BGR2Lab
| COLOR_BGR2GRAY
| COLOR_HSV2BGR
| COLOR_Lab2BGR
| COLOR_GRAY2BGR
| COLOR_YCrCb2BGR
| COLOR_BGR2YCrCb.

(** The dictionary [info] of [espacio_color]; [rangos] and [ciclos] are
    dictionaries in insertion order. *)
Record info : Type := mk_info {
  espacio : string;
  info_dtype : option string;
  info_shape : option (list nat);
  rangos : option (list (string * (pyfloat * pyfloat)));
  ciclos : list (string * pyfloat)
}.

Definition set_espacio (e : string) (i : info) : info :=
  mk_info e (info_dtype i) (info_shape i) (rangos i) (ciclos i).

Definition set_rangos (r : list (string * (pyfloat * pyfloat))) (i : info) : info :=
  mk_info (espacio i) (info_dtype i) (info_shape i) (Some r) (ciclos i).

Definition set_ciclos (c : list (string * pyfloat)) (i : info) : info :=
  mk_info (espacio i) (info_dtype i) (info_shape i) (rangos i) c.

Definition pair_eqb (a b : string * string) : bool :=
  String.eqb (fst a) (fst b) && String.eqb (snd a) (snd b).

(** [d.get(k)] on a dictionary written as a list of items. *)
Fixpoint dict_get {V : Type} (k : string * string) (d : list ((string * string) * V)) : option V :=
  match d with
  | [] => None
  | (k', v) :: r => if pair_eqb k k' then Some v else dict_get k r
  end.

Section ColorUtils.

(** [cv2.cvtColor(src, code)]: either the converted array or an error. *)
Variable cvtColor : ndarray -> ColorConversionCodes -> result ndarray.

(** What NumPy answers for [np.mean((a - b) ** 2)] when the two shapes
    differ: the mean over the broadcast arrays, or a [ValueError]. *)
Variable mse_broadcast : ndarray -> ndarray -> result pyfloat.

(** The C conversion of a float to [uint8] is undefined outside
    (-1, 256) and on NaN; what the platform stores there. *)
Variable cast_indefinido : pyfloat -> Z.

(** [x.astype(np.uint8)] on one element. *)
Definition astype_uint8 (x : pyfloat) : pyfloat :=
  match x with
  | Fin q =>
      if negb (Qle_bool q (-1 # 1)) && negb (Qle_bool 256 q)
      then of_Z (trunc q)
      else of_Z (cast_indefinido x mod 256)
  | _ => of_Z (cast_indefinido x mod 256)
  end.

(** *** [_ensure_u8_3c] *)

(** [(np.clip(img, 0, 1) * 255.0).round().astype(np.uint8)] *)
Definition escala_unidad (img : ndarray) : ndarray :=
  mk_ndarray uint8 (shape img)
    (map (fun x => astype_uint8 (np_round (por_255 (dtype img) (np_clip 0 1 x))))
         (data img)).

(** [np.clip(img, 0, 255).round().astype(np.uint8)] *)
Definition escala_255 (img : ndarray) : ndarray :=
  mk_ndarray uint8 (shape img)
    (map (fun x => astype_uint8 (np_round (np_clip 0 255 x))) (data img)).

Definition _ensure_u8_3c (img : ndarray) : result ndarray :=
  if negb (ndim img =? 3)%nat || negb (shape_at img 2 =? 3)%nat then
    Raise (ValueError ("Se esperaba imagen 3 canales, got shape=" ++ str_shape (shape img)))
  else if dtype_eqb (dtype img) uint8 then
    Ok img
  else
    mx <- np_nanmax (data img) ;;
    if fle mx umbral_unidad then Ok (escala_unidad img)
    else Ok (escala_255 img).

(** *** [_mse] *)

Definition shape_eqb (s t : list nat) : bool :=
  if list_eq_dec Nat.eq_dec s t then true else false.

Definition _mse (a b : ndarray) : result pyfloat :=
  if shape_eqb (shape a) (shape b) then
    let a' := map astype_float32 (data a) in
    let b' := map astype_float32 (data b) in
    Ok (np_mean (map (fun xy => let d := fsub (fst xy) (snd xy) in fmul d d)
                     (combine a' b')))
  else mse_broadcast a b.

(** *** [espacio_color] *)

Definition info_inicial : info :=
  mk_info "Desconocido" None None None [].

(** The body of the [try] block up to the two errors of the cycles. *)
Definition ciclos_lab_ycrcb (img : ndarray) : result (pyfloat * pyfloat) :=
  u8 <- _ensure_u8_3c img ;;
  bgr_y <- cvtColor u8 COLOR_YCrCb2BGR ;;
  rec_y <- cvtColor bgr_y COLOR_BGR2YCrCb ;;
  mse_y <- _mse rec_y u8 ;;
  bgr_l <- cvtColor u8 COLOR_Lab2BGR ;;
  rec_l <- cvtColor bgr_l COLOR_BGR2Lab ;;
  mse_l <- _mse rec_l u8 ;;
  Ok (mse_y, mse_l).

(** Steps 5 and 6: BGR/RGB by default, else the label is left as it is. *)
Definition bgr_por_defecto (d : np_dtype) (cmax : list pyfloat) (i : info) : info :=
  if dtype_eqb d uint8 && forallb (fun m => fle m (of_Z 255)) cmax then
    set_espacio "BGR/RGB" i
  else if is_floating d && forallb (fun m => fle m umbral_unidad) cmax then
    set_espacio "BGR/RGB" i
  else i.

Definition espacio_color (img : option ndarray) : result info :=
  let info := info_inicial in
  match img with
  | None => Ok info
  | Some img =>
      let info := mk_info (espacio info) (Some (dtype_str (dtype img)))
                          (Some (shape img)) (rangos info) (ciclos info) in
      if (ndim img =? 2)%nat then
        cmin <- np_min (data img) ;;
        cmax <- np_max (data img) ;;
        Ok (set_rangos [("Canal", (py_round cmin 2, py_round cmax 2))]
              (set_espacio "GRAY" info))
      else if negb (ndim img =? 3)%nat || negb (shape_at img 2 =? 3)%nat then
        Ok info
      else
        cmin0 <- np_min (canal 0 (data img)) ;;
        cmin1 <- np_min (canal 1 (data img)) ;;
        cmin2 <- np_min (canal 2 (data img)) ;;
        cmax0 <- np_max (canal 0 (data img)) ;;
        cmax1 <- np_max (canal 1 (data img)) ;;
        cmax2 <- np_max (canal 2 (data img)) ;;
        let info :=
          set_rangos [("C0", (py_round cmin0 2, py_round cmax0 2));
                      ("C1", (py_round cmin1 2, py_round cmax1 2));
                      ("C2", (py_round cmin2 2, py_round cmax2 2))] info in
        let dtype := dtype img in
        if dtype_eqb dtype uint8 && fle cmax0 (of_Z 180) && fle cmax1 (of_Z 255)
           && fle cmax2 (of_Z 255) then
          Ok (set_espacio "HSV" info)
        else if is_floating dtype
                && (fle cmax0 (of_Z 360) && fle cmax1 umbral_sv && fle cmax2 umbral_sv) then
          Ok (set_espacio "HSV" info)
        else
          match ciclos_lab_ycrcb img with
          | Ok (mse_y, mse_l) =>
              let info :=
                set_ciclos [("YCrCb_mse", py_round mse_y 3); ("Lab_mse", py_round mse_l 3)]
                           info in
              if flt mse_y (Fin (1 # 2)) || flt mse_l (Fin (1 # 2)) then
                Ok (set_espacio "Lab/YCrCb" info)
              else Ok (bgr_por_defecto dtype [cmax0; cmax1; cmax2] info)
          | Raise _ => Ok (bgr_por_defecto dtype [cmax0; cmax1; cmax2] info)
          end
  end.

(** *** [convertir_espacio_color] *)

Definition conversiones : list ((string * string) * ColorConversionCodes) :=
  [ (("BGR/RGB", "HSV"), COLOR_BGR2HSV);
    (("BGR/RGB", "Lab"), COLOR_BGR2Lab);
    (("BGR/RGB", "GRAY"), COLOR_BGR2GRAY);
    (("HSV", "BGR/RGB"), COLOR_HSV2BGR);
    (("Lab", "BGR/RGB"), COLOR_Lab2BGR);
    (("GRAY", "BGR/RGB"), COLOR_GRAY2BGR) ].

Definition no_soportada (origen destino : string) : exn :=
  ValueError ("Conversión no soportada: " ++ origen ++ " -> " ++ destino).

Definition convertir_espacio_color (img : option ndarray) (espacio_destino : string)
  : result ndarray :=
  info_original <- espacio_color img ;;
  let espacio_original := espacio info_original in
  let clave := (espacio_original, espacio_destino) in
  match dict_get clave conversiones with
  | Some code =>
      match img with
      | Some a => cvtColor a code
      | None => Raise (cv2_error "src is not a numpy array")
      end
  | None => Raise (no_soportada espacio_original espacio_destino)
  end.

(** *** [modificar_canal] *)

Definition modificar_canal (canal : ndarray) (operacion : string) (factor : pyfloat)
  : ndarray :=
  let canal_mod := map astype_float32 (data canal) in
  let canal_mod :=
    if String.eqb operacion "brillo" then
      map (np_clip 0 255) (map (fun x => fmul x factor) canal_mod)
    else if String.eqb operacion "contraste" then
      let mean_val := np_mean canal_mod in
      map (np_clip 0 255)
          (map (fun x => fadd (fmul (fsub x mean_val) factor) mean_val) canal_mod)
    else if String.eqb operacion "invertir" then
      map (fun x => fsub (of_Z 255) x) canal_mod
    else canal_mod in
  mk_ndarray uint8 (shape canal) (map astype_uint8 canal_mod).

End ColorUtils.

Arguments espacio_color : simpl never.

(** ** Concrete arrays *)

(** [np.full((100, 100, 3), 0.5)] *)
Definition imagen_05 : ndarray :=
  mk_ndarray float64 [100; 100; 3]%nat (repeat (Fin (1 # 2)) (100 * 100 * 3)).

(** [np.zeros((0, 0))] and [np.zeros((0, 0, 3))] *)
Definition vacia_2d : ndarray := mk_ndarray float64 [0; 0]%nat [].
Definition vacia_3c : ndarray := mk_ndarray float64 [0; 0; 3]%nat [].

(** [np.array([[0.125, 0.5]])] *)
Definition gris_octavo : ndarray :=
  mk_ndarray float64 [1; 2]%nat [Fin (1 # 8); Fin (1 # 2)].

(** [np.array([[np.nan]])] *)
Definition gris_nan : ndarray := mk_ndarray float64 [1; 1]%nat [NaN].


(** [np.array([[0, 255]], dtype=np.uint8)] and [np.array([[0, 1]], dtype=np.uint8)] *)
Definition canal_extremos : ndarray := mk_ndarray uint8 [1; 2]%nat [of_Z 0; of_Z 255].
Definition canal_01 : ndarray := mk_ndarray uint8 [1; 2]%nat [of_Z 0; of_Z 1].


(** [np.array([[1.99999999]])], with the double written out. *)
Definition canal_casi_dos : ndarray :=
  mk_ndarray float64 [1; 1]%nat [Fin (2251799802426249 # 1125899906842624)].



(** [np.array([[[200, 10, 10]]], dtype=np.uint8)] *)
Definition pixel_azul : ndarray :=
  mk_ndarray uint8 [1; 1; 3]%nat [of_Z 200; of_Z 10; of_Z 10].

(** A stand-in for OpenCV, to run the functions on concrete arrays: a
    conversion of a [uint8] image with three channels and at least one
    pixel answers a black image of the same shape, any other call is an
    error. *)
Definition cvtColor_negro (src : ndarray) (code : ColorConversionCodes) : result ndarray :=
  if dtype_eqb (dtype src) uint8 && (ndim src =? 3)%nat && (shape_at src 2 =? 3)%nat
     && negb (List.length (data src) =? 0)%nat
  then Ok (mk_ndarray uint8 (shape src) (map (fun _ => of_Z 0) (data src)))
  else Raise (cv2_error "cvtColor: bad argument").

(** OpenCV refusing every call. *)
Definition cvtColor_error (src : ndarray) (code : ColorConversionCodes) : result ndarray :=
  Raise (cv2_error "cvtColor: unsupported").

(** NumPy refusing to broadcast two shapes. *)
Definition sin_broadcast (a b : ndarray) : result pyfloat :=
  Raise (ValueError "operands could not be broadcast together").

(** A platform storing 0 where the conversion to [uint8] is undefined. *)
Definition cast_cero (x : pyfloat) : Z := 0%Z.

(** ** Notions used by the statements *)

(** The five labels [espacio_color] documents. *)
Definition etiquetas : list string :=
  ["GRAY"; "HSV"; "Lab/YCrCb"; "BGR/RGB"; "Desconocido"].

(** No element of the list is NaN. *)
Definition sin_nan (l : list pyfloat) : bool :=
  forallb (fun x => negb (is_nan x)) l.

(** [m] is a least (greatest) element of [l] for [<=]. *)
Definition es_minimo (m : pyfloat) (l : list pyfloat) : Prop :=
  In m l /\ forall x, In x l -> fle m x = true.

Definition es_maximo (m : pyfloat) (l : list pyfloat) : Prop :=
  In m l /\ forall x, In x l -> fle x m = true.

(** The elements that are not NaN, and what [np.nanmax] answers: their
    greatest element, infinities included, or NaN when there is none. *)
Definition no_nan (l : list pyfloat) : list pyfloat :=
  filter (fun x => negb (is_nan x)) l.

Definition es_nanmax (m : pyfloat) (l : list pyfloat) : Prop :=
  (no_nan l = [] /\ m = NaN) \/ (no_nan l <> [] /\ es_maximo m (no_nan l)).


(** The array is three-dimensional with a last axis of size 3. *)
Definition tres_canales (a : ndarray) : bool :=
  (ndim a =? 3)%nat && (shape_at a 2 =? 3)%nat.

(** The integer a [uint8] element stands for. *)
Definition valor (x : pyfloat) : Z :=
  match x with
  | Fin q => trunc q
  | _ => 0%Z
  end.

Definition maximo (l : list Z) : Z := fold_right Z.max (hd 0%Z l) l.
Definition minimo (l : list Z) : Z := fold_right Z.min (hd 0%Z l) l.

Definition sumaZ (l : list Z) : Z := fold_right Z.add 0%Z l.

(** max - min over the elements of a [uint8] channel. *)
Definition dispersion (c : ndarray) : Z :=
  (maximo (map valor (data c)) - minimo (map valor (data c)))%Z.

(** The elements are integers of [0, 255], whatever the dtype. *)
Definition valores_uint8 (a : ndarray) : bool := forallb is_uint8_val (data a).

(** A [uint8] array whose elements are integers of [0, 255]. *)
Definition es_uint8 (a : ndarray) : bool :=
  dtype_eqb (dtype a) uint8 && valores_uint8 a.

(** The same shape and elements, as a [uint8] array. *)
Definition como_uint8 (a : ndarray) : ndarray :=
  mk_ndarray uint8 (shape a) (data a).

(** What the module needs of OpenCV to convert a BGR image: on a [uint8]
    image with three channels and at least one pixel, [COLOR_BGR2HSV]
    answers an array of the same shape. *)
Definition cv2_bgr2hsv (cvtColor : ndarray -> ColorConversionCodes -> result ndarray) : Prop :=
  forall src,
    es_uint8 src = true -> tres_canales src = true -> data src <> [] ->
    exists dst, cvtColor src COLOR_BGR2HSV = Ok dst /\ shape dst = shape src.

(** ** Further notions and arrays *)

(** Every element is finite and lies in [0, 1]. *)
Definition en_unidad (x : pyfloat) : bool :=
  match x with
  | Fin q => Qle_bool 0 q && Qle_bool q 1
  | _ => false
  end.

(** The finite value an element holds (0 for NaN and the infinities). *)
Definition racional (x : pyfloat) : Q :=
  match x with
  | Fin q => q
  | _ => 0
  end.

(** [np.array([[[0.0, 0.5, 1.0]]])] *)
Definition pixel_unidad : ndarray :=
  mk_ndarray float64 [1; 1; 3]%nat [Fin 0; Fin (1 # 2); Fin 1].

(** [np.array([[[0.0, 1.0, 200.0]]])] and [np.array([[[0.0, 1.0, 1.0]]])] *)
Definition pixel_entero : ndarray :=
  mk_ndarray float64 [1; 1; 3]%nat [of_Z 0; of_Z 1; of_Z 200].
Definition pixel_binario : ndarray :=
  mk_ndarray float64 [1; 1; 3]%nat [of_Z 0; of_Z 1; of_Z 1].

(** The squared differences of two lists of integers, pair by pair. *)
Definition cuadrados (l1 l2 : list pyfloat) : list Z :=
  map (fun xy => ((valor (fst xy) - valor (snd xy)) * (valor (fst xy) - valor (snd xy)))%Z)
      (combine l1 l2).

(** OpenCV answering every conversion with the array it is given. *)
Definition cvtColor_identidad (src : ndarray) (code : ColorConversionCodes) : result ndarray :=
  Ok src.

(** [np.array([[[200, 10, 10]]], dtype=np.uint8)] with one value changed. *)
Definition pixel_rojo : ndarray :=
  mk_ndarray uint8 [1; 1; 3]%nat [of_Z 10; of_Z 10; of_Z 200].

(** [np.zeros((1, 1, 4), dtype=np.uint8)] *)
Definition pixel_rgba : ndarray :=
  mk_ndarray uint8 [1; 1; 4]%nat [of_Z 0; of_Z 0; of_Z 0; of_Z 0].

(** [np.array([[100, 200]], dtype=np.uint8)] *)
Definition canal_100_200 : ndarray :=
  mk_ndarray uint8 [1; 2]%nat [of_Z 100; of_Z 200].

(** What [espacio_color] answers for the pixel (200, 10, 10) when OpenCV
    refuses every call, and when it gives every array back. *)
Definition info_pixel_azul : info :=
  mk_info "BGR/RGB" (Some "uint8") (Some [1; 1; 3]%nat)
    (Some [("C0", (of_Z 200, of_Z 200)); ("C1", (of_Z 10, of_Z 10));
           ("C2", (of_Z 10, of_Z 10))]) [].

Definition info_pixel_azul_ciclo : info :=
  mk_info "Lab/YCrCb" (Some "uint8") (Some [1; 1; 3]%nat)
    (Some [("C0", (of_Z 200, of_Z 200)); ("C1", (of_Z 10, of_Z 10));
           ("C2", (of_Z 10, of_Z 10))])
    [("YCrCb_mse", Fin 0); ("Lab_mse", Fin 0)].

(** ** Order on floats *)

#[local] Arguments Qred : simpl never.

Lemma fle_refl (x : pyfloat) : is_nan x = false -> fle x x = true.
Proof.
  destruct x; simpl; intros H; try discriminate; try reflexivity.
  apply Qle_bool_iff. apply Qle_refl.
Qed.

Lemma fle_trans (x y z : pyfloat) :
  fle x y = true -> fle y z = true -> fle x z = true.
Proof.
  destruct x, y, z; simpl; intros H1 H2; try discriminate; try reflexivity.
  apply Qle_bool_iff. apply Qle_bool_iff in H1, H2.
  eapply Qle_trans; eassumption.
Qed.

Lemma fle_total (x y : pyfloat) :
  is_nan x = false -> is_nan y = false -> fle x y = false -> fle y x = true.
Proof.
  destruct x, y; simpl; intros Hx Hy H; try discriminate; try reflexivity.
  apply Qle_bool_iff. destruct (Qlt_le_dec q0 q) as [Hlt | Hle].
  - apply Qlt_le_weak in Hlt. exact Hlt.
  - apply Qle_bool_iff in Hle. congruence.
Qed.

Lemma fmin2_nan_l (r : list pyfloat) : fold_left fmin2 r NaN = NaN.
Proof. induction r as [| y r IH]; simpl; [reflexivity | exact IH]. Qed.

Lemma fmax2_nan_l (r : list pyfloat) : fold_left fmax2 r NaN = NaN.
Proof. induction r as [| y r IH]; simpl; [reflexivity | exact IH]. Qed.

Lemma fmin2_cases (x y : pyfloat) :
  is_nan x = false -> is_nan y = false ->
  is_nan (fmin2 x y) = false /\ (fmin2 x y = x \/ fmin2 x y = y) /\
  fle (fmin2 x y) x = true /\ fle (fmin2 x y) y = true.
Proof.
  intros Hx Hy. unfold fmin2.
  destruct (fle x y) eqn:E.
  - destruct x, y; try discriminate; repeat split; auto; now apply fle_refl.
  - pose proof (fle_total x y Hx Hy E) as E'.
    destruct x, y; try discriminate; repeat split; auto; now apply fle_refl.
Qed.

Lemma fmax2_cases (x y : pyfloat) :
  is_nan x = false -> is_nan y = false ->
  is_nan (fmax2 x y) = false /\ (fmax2 x y = x \/ fmax2 x y = y) /\
  fle x (fmax2 x y) = true /\ fle y (fmax2 x y) = true.
Proof.
  intros Hx Hy. unfold fmax2.
  destruct (fle x y) eqn:E.
  - destruct x, y; try discriminate; repeat split; auto; now apply fle_refl.
  - pose proof (fle_total x y Hx Hy E) as E'.
    destruct x, y; try discriminate; repeat split; auto; now apply fle_refl.
Qed.

(** On a list without NaN, the left fold of [np.minimum] is a least
    element. *)
Lemma fold_fmin2_minimo (r : list pyfloat) : forall x,
  sin_nan (x :: r) = true -> es_minimo (fold_left fmin2 r x) (x :: r).
Proof.
  induction r as [| y r IH]; intros x H.
  - simpl in *. apply andb_prop in H as [Hx _]. apply negb_true_iff in Hx.
    split; [now left |]. intros z [<- | []]. now apply fle_refl.
  - simpl in H. apply andb_prop in H as [Hx H]. apply andb_prop in H as [Hy Hr].
    apply negb_true_iff in Hx, Hy.
    destruct (fmin2_cases x y Hx Hy) as (Hn & Hc & Hlx & Hly).
    assert (Hs : sin_nan (fmin2 x y :: r) = true).
    { simpl. rewrite Hn. exact Hr. }
    destruct (IH _ Hs) as [Hin Hle]. simpl fold_left. split.
    + destruct Hin as [Hin | Hin].
      * rewrite <- Hin. destruct Hc as [-> | ->]; simpl; auto.
      * right; right; exact Hin.
    + intros z [<- | [<- | Hz]].
      * eapply fle_trans; [apply Hle; now left | exact Hlx].
      * eapply fle_trans; [apply Hle; now left | exact Hly].
      * apply Hle. now right.
Qed.

Lemma fold_fmax2_maximo (r : list pyfloat) : forall x,
  sin_nan (x :: r) = true -> es_maximo (fold_left fmax2 r x) (x :: r).
Proof.
  induction r as [| y r IH]; intros x H.
  - simpl in *. apply andb_prop in H as [Hx _]. apply negb_true_iff in Hx.
    split; [now left |]. intros z [<- | []]. now apply fle_refl.
  - simpl in H. apply andb_prop in H as [Hx H]. apply andb_prop in H as [Hy Hr].
    apply negb_true_iff in Hx, Hy.
    destruct (fmax2_cases x y Hx Hy) as (Hn & Hc & Hlx & Hly).
    assert (Hs : sin_nan (fmax2 x y :: r) = true).
    { simpl. rewrite Hn. exact Hr. }
    destruct (IH _ Hs) as [Hin Hle]. simpl fold_left. split.
    + destruct Hin as [Hin | Hin].
      * rewrite <- Hin. destruct Hc as [-> | ->]; simpl; auto.
      * right; right; exact Hin.
    + intros z [<- | [<- | Hz]].
      * eapply fle_trans; [exact Hlx | apply Hle; now left].
      * eapply fle_trans; [exact Hly | apply Hle; now left].
      * apply Hle. now right.
Qed.

(** A NaN anywhere makes [np.min] and [np.max] NaN. *)
Lemma fold_fmin2_nan (r : list pyfloat) : forall x,
  sin_nan (x :: r) = false -> fold_left fmin2 r x = NaN.
Proof.
  induction r as [| y r IH]; intros x H.
  - simpl in *. destruct x; try discriminate. reflexivity.
  - simpl fold_left. destruct (is_nan x) eqn:Hx.
    + destruct x; try discriminate. simpl. apply fmin2_nan_l.
    + destruct (is_nan y) eqn:Hy.
      * destruct y; try discriminate. destruct x; simpl; apply fmin2_nan_l.
      * apply IH. destruct (fmin2_cases x y Hx Hy) as (Hn & _).
        change (negb (is_nan (fmin2 x y)) && sin_nan r = false). rewrite Hn.
        change (negb (is_nan x) && (negb (is_nan y) && sin_nan r) = false) in H.
        rewrite Hx, Hy in H. exact H.
Qed.

Lemma fold_fmax2_nan (r : list pyfloat) : forall x,
  sin_nan (x :: r) = false -> fold_left fmax2 r x = NaN.
Proof.
  induction r as [| y r IH]; intros x H.
  - simpl in *. destruct x; try discriminate. reflexivity.
  - simpl fold_left. destruct (is_nan x) eqn:Hx.
    + destruct x; try discriminate. simpl. apply fmax2_nan_l.
    + destruct (is_nan y) eqn:Hy.
      * destruct y; try discriminate. destruct x; simpl; apply fmax2_nan_l.
      * apply IH. destruct (fmax2_cases x y Hx Hy) as (Hn & _).
        change (negb (is_nan (fmax2 x y)) && sin_nan r = false). rewrite Hn.
        change (negb (is_nan x) && (negb (is_nan y) && sin_nan r) = false) in H.
        rewrite Hx, Hy in H. exact H.
Qed.

Lemma fmax_nan_cases (x y : pyfloat) :
  is_nan x = false -> is_nan y = false ->
  is_nan (fmax_nan x y) = false /\ (fmax_nan x y = x \/ fmax_nan x y = y) /\
  fle x (fmax_nan x y) = true /\ fle y (fmax_nan x y) = true.
Proof.
  intros Hx Hy. replace (fmax_nan x y) with (fmax2 x y).
  - now apply fmax2_cases.
  - destruct x, y; try discriminate; reflexivity.
Qed.

Lemma es_maximo_cons (m x y : pyfloat) (r : list pyfloat) :
  is_nan x = false -> is_nan y = false ->
  es_maximo m (fmax_nan x y :: r) -> es_maximo m (x :: y :: r).
Proof.
  intros Hx Hy [Hin Hle].
  destruct (fmax_nan_cases x y Hx Hy) as (_ & Hc & Hlx & Hly). split.
  - destruct Hin as [Hin | Hin].
    + rewrite <- Hin. destruct Hc as [-> | ->]; simpl; auto.
    + right; right; exact Hin.
  - intros z [<- | [<- | Hz]].
    + eapply fle_trans; [exact Hlx | apply Hle; now left].
    + eapply fle_trans; [exact Hly | apply Hle; now left].
    + apply Hle. now right.
Qed.

(** The left fold of [np.fmax] is the greatest of the elements that are
    not NaN. *)
Lemma fold_fmax_nan_spec (r : list pyfloat) : forall x,
  es_nanmax (fold_left fmax_nan r x) (x :: r).
Proof.
  unfold es_nanmax, no_nan.
  induction r as [| y r IH]; intros x.
  - destruct x; simpl; [left; split; reflexivity | right ..];
      (split; [discriminate |]; split; [now left |]; intros z [<- | []]; reflexivity || idtac).
    apply Qle_bool_iff, Qle_refl.
  - cbn [fold_left]. destruct (is_nan x) eqn:Hx.
    { destruct x; try discriminate. cbn [fmax_nan filter is_nan negb]. apply IH. }
    destruct (is_nan y) eqn:Hy.
    { destruct y; try discriminate.
      replace (fmax_nan x NaN) with x by (destruct x; reflexivity).
      specialize (IH x). cbn [filter is_nan negb] in *. rewrite Hx in *. exact IH. }
    destruct (fmax_nan_cases x y Hx Hy) as (Hn & _).
    specialize (IH (fmax_nan x y)). cbn [filter] in *.
    rewrite Hn in IH. rewrite Hx, Hy. cbn [negb] in *.
    destruct IH as [[C _] | [_ IH]]; [discriminate |].
    right. split; [discriminate |]. now apply es_maximo_cons.
Qed.

Lemma np_nanmax_spec (l : list pyfloat) :
  l <> [] -> exists m, np_nanmax l = Ok m /\ es_nanmax m l.
Proof.
  destruct l as [| x r]; [congruence |]. intros _.
  eexists. split; [reflexivity |]. apply fold_fmax_nan_spec.
Qed.

Lemma np_min_ok (l : list pyfloat) :
  l <> [] -> exists m, np_min l = Ok m.
Proof. destruct l as [| x r]; [congruence | intros _; eexists; reflexivity]. Qed.

Lemma np_max_ok (l : list pyfloat) :
  l <> [] -> exists m, np_max l = Ok m.
Proof. destruct l as [| x r]; [congruence | intros _; eexists; reflexivity]. Qed.

Lemma np_min_minimo (l : list pyfloat) (m : pyfloat) :
  np_min l = Ok m -> sin_nan l = true -> es_minimo m l.
Proof.
  destruct l as [| x r]; simpl; intros H Hn; [discriminate |].
  injection H as <-. now apply fold_fmin2_minimo.
Qed.

Lemma np_max_maximo (l : list pyfloat) (m : pyfloat) :
  np_max l = Ok m -> sin_nan l = true -> es_maximo m l.
Proof.
  destruct l as [| x r]; simpl; intros H Hn; [discriminate |].
  injection H as <-. now apply fold_fmax2_maximo.
Qed.

Lemma np_min_le_max (l : list pyfloat) (mn mx : pyfloat) :
  np_min l = Ok mn -> np_max l = Ok mx -> sin_nan l = true -> fle mn mx = true.
Proof.
  intros Hmn Hmx Hn.
  destruct (np_min_minimo _ _ Hmn Hn) as [Hin _].
  destruct (np_max_maximo _ _ Hmx Hn) as [_ Hle].
  now apply Hle.
Qed.

(** ** Pixels and channels *)

Lemma list_ind3 (P : list pyfloat -> Prop) :
  P [] -> (forall a, P [a]) -> (forall a b, P [a; b]) ->
  (forall a b c r, P r -> P (a :: b :: c :: r)) ->
  forall l, P l.
Proof.
  intros H0 H1 H2 H3. fix IH 1. intros [| a [| b [| c r]]].
  - apply H0.
  - apply H1.
  - apply H2.
  - apply H3. apply IH.
Qed.

Lemma canal_In (i : nat) (l : list pyfloat) (x : pyfloat) :
  (i < 3)%nat -> In x (canal i l) -> In x l.
Proof.
  intros Hi. induction l as [| a | a b | a b c r IH] using list_ind3; simpl; try tauto.
  intros [Hx | Hx].
  - destruct i as [| [| [| i]]]; simpl in Hx; try lia; subst; auto.
  - right; right; right. now apply IH.
Qed.

Lemma sin_nan_forall (l : list pyfloat) :
  sin_nan l = true <-> forall x, In x l -> is_nan x = false.
Proof.
  unfold sin_nan. rewrite forallb_forall. split; intros H x Hx.
  - apply negb_true_iff. now apply H.
  - apply negb_true_iff. now apply H.
Qed.

Lemma canal_sin_nan (i : nat) (l : list pyfloat) :
  (i < 3)%nat -> sin_nan l = true -> sin_nan (canal i l) = true.
Proof.
  intros Hi H. apply sin_nan_forall. intros x Hx.
  apply (proj1 (sin_nan_forall l) H). now apply (canal_In i).
Qed.

Lemma canal_no_vacio (i : nat) (l : list pyfloat) :
  (3 <= List.length l)%nat -> canal i l <> [].
Proof.
  destruct l as [| a [| b [| c r]]]; simpl; intros H; try lia. discriminate.
Qed.

(** ** Rounding *)

Lemma round_half_even_bounds (q : Q) :
  (Qfloor q <= round_half_even q <= Qfloor q + 1)%Z.
Proof.
  unfold round_half_even.
  destruct (Qcompare _ _); [destruct (Z.even _) |..]; lia.
Qed.

Lemma round_half_even_mono (p q : Q) :
  p <= q -> (round_half_even p <= round_half_even q)%Z.
Proof.
  intros H. pose proof (Qfloor_resp_le _ _ H) as Hf.
  destruct (Z.eq_dec (Qfloor p) (Qfloor q)) as [E | E].
  - unfold round_half_even. rewrite E.
    generalize dependent (inject_Z (Qfloor q)). intros f.
    destruct (Qcompare (p - f) (1 # 2)) eqn:Cp;
      destruct (Qcompare (q - f) (1 # 2)) eqn:Cq;
      try (destruct (Z.even (Qfloor q))); try lia; exfalso;
      repeat match goal with
             | C : Qcompare _ _ = Eq |- _ => apply Qeq_alt in C
             | C : Qcompare _ _ = Lt |- _ => apply Qlt_alt in C
             | C : Qcompare _ _ = Gt |- _ => apply Qgt_alt in C
             end; lra.
  - pose proof (round_half_even_bounds p). pose proof (round_half_even_bounds q). lia.
Qed.

Lemma round_half_even_int (q : Q) (z : Z) :
  q == inject_Z z -> round_half_even q = z.
Proof.
  intros H. unfold round_half_even.
  rewrite (Qfloor_comp _ _ H), Qfloor_Z.
  assert (C : Qcompare (q - inject_Z z) (1 # 2) = Lt).
  { apply Qlt_alt. rewrite H. unfold Qminus. rewrite Qplus_opp_r. reflexivity. }
  now rewrite C.
Qed.

Lemma round_half_even_error (v : Q) :
  v - (1 # 2) <= inject_Z (round_half_even v) <= v + (1 # 2).
Proof.
  unfold round_half_even.
  pose proof (Qfloor_le v) as H0. pose proof (Qlt_floor v) as H1.
  rewrite inject_Z_plus in H1. change (inject_Z 1) with 1 in H1.
  destruct (Qcompare (v - inject_Z (Qfloor v)) (1 # 2)) eqn:C.
  - apply Qeq_alt in C. destruct (Z.even (Qfloor v)).
    + generalize dependent (inject_Z (Qfloor v)). intros f H0 H1 C. lra.
    + rewrite inject_Z_plus. change (inject_Z 1) with 1.
      generalize dependent (inject_Z (Qfloor v)). intros f H0 H1 C. lra.
  - apply Qlt_alt in C.
    generalize dependent (inject_Z (Qfloor v)). intros f H0 H1 C. lra.
  - apply Qgt_alt in C. rewrite inject_Z_plus. change (inject_Z 1) with 1.
    generalize dependent (inject_Z (Qfloor v)). intros f H0 H1 C. lra.
Qed.

Lemma round_half_even_rango (v : Q) (a b : Z) :
  inject_Z a <= v -> v <= inject_Z b -> (a <= round_half_even v <= b)%Z.
Proof.
  intros Ha Hb. split.
  - rewrite <- (round_half_even_int (inject_Z a) a (Qeq_refl _)).
    now apply round_half_even_mono.
  - rewrite <- (round_half_even_int (inject_Z b) b (Qeq_refl _)).
    now apply round_half_even_mono.
Qed.

Lemma Qred_inject_Z (z : Z) : Qred (inject_Z z) = inject_Z z.
Proof.
  unfold Qred, inject_Z.
  pose proof (Z.ggcd_gcd z 1) as Hg.
  pose proof (Z.ggcd_correct_divisors z 1) as Hd.
  destruct (Z.ggcd z 1) as [g [aa bb]]. simpl in *.
  rewrite Z.gcd_1_r in Hg. subst g. destruct Hd as [Ha Hb].
  rewrite Z.mul_1_l in Ha, Hb. subst. reflexivity.
Qed.

Lemma Qred_int (q : Q) (z : Z) : q == inject_Z z -> Qred q = inject_Z z.
Proof. intros H. rewrite (Qred_complete _ _ H). apply Qred_inject_Z. Qed.

Lemma pow10_pos (n : nat) : (0 < 10 ^ Z.of_nat n)%Z.
Proof. apply Z.pow_pos_nonneg; lia. Qed.

Lemma is_int_val_inv (x : pyfloat) :
  is_int_val x = true -> exists z, x = of_Z z.
Proof.
  destruct x as [| | [n d] |]; unfold is_int_val; intros H; try discriminate.
  cbn [Qden] in H. apply Pos.eqb_eq in H. subst d. now exists n.
Qed.

Lemma is_uint8_val_inv (x : pyfloat) :
  is_uint8_val x = true -> exists z, x = of_Z z /\ (0 <= z <= 255)%Z.
Proof.
  destruct x as [| | [n d] |]; unfold is_uint8_val; intros H; try discriminate.
  cbn [Qnum Qden] in H.
  apply andb_prop in H as [H H2]. apply andb_prop in H as [H0 H1].
  apply Pos.eqb_eq in H0. subst d. exists n. split; [reflexivity | lia].
Qed.

(** [round(x, n)] leaves an integer as it is. *)
Lemma py_round_int (x : pyfloat) (n : nat) :
  is_int_val x = true -> py_round x n = x.
Proof.
  intros H. apply is_int_val_inv in H as [z ->]. unfold py_round, of_Z.
  pose proof (pow10_pos n) as Hp. set (p := (10 ^ Z.of_nat n)%Z) in *.
  f_equal. apply Qred_int.
  assert (E : inject_Z z * inject_Z p == inject_Z (z * p)).
  { now rewrite inject_Z_mult. }
  rewrite (round_half_even_int _ _ E), inject_Z_mult.
  field. intros C. apply (inject_Z_injective p 0) in C. lia.
Qed.

(** [round(x, n)] is monotone. *)
Lemma py_round_mono (x y : pyfloat) (n : nat) :
  fle x y = true -> fle (py_round x n) (py_round y n) = true.
Proof.
  destruct x as [| | a |], y as [| | b |]; simpl; intros H; try discriminate; try reflexivity.
  apply Qle_bool_iff in H. apply Qle_bool_iff.
  pose proof (pow10_pos n) as Hp. set (p := (10 ^ Z.of_nat n)%Z) in *.
  rewrite !Qred_correct.
  assert (Hq : 0 < inject_Z p) by (rewrite Zlt_Qlt in Hp; exact Hp).
  apply Qmult_le_compat_r.
  - rewrite <- Zle_Qle. apply round_half_even_mono.
    apply Qmult_le_compat_r; [exact H | now apply Qlt_le_weak].
  - apply Qlt_le_weak. now apply Qinv_lt_0_compat.
Qed.

Lemma Qle_bool_false (p q : Q) : Qle_bool p q = false <-> q < p.
Proof.
  split; intros H.
  - apply Qnot_le_lt. intros C. apply Qle_bool_iff in C. congruence.
  - destruct (Qle_bool p q) eqn:E; [| reflexivity].
    apply Qle_bool_iff in E. exfalso. apply (Qlt_not_le _ _ H E).
Qed.

Lemma Qclip_rango (lo hi q : Q) : lo <= hi -> lo <= Qclip lo hi q <= hi.
Proof.
  intros H. unfold Qclip. destruct (Qle_bool lo q) eqn:E0.
  - apply Qle_bool_iff in E0. destruct (Qle_bool q hi) eqn:E1.
    + apply Qle_bool_iff in E1. split; assumption.
    + split; [exact H | apply Qle_refl].
  - split; [apply Qle_refl | exact H].
Qed.

Lemma Qclip_mono (lo hi p q : Q) :
  lo <= hi -> p <= q -> Qclip lo hi p <= Qclip lo hi q.
Proof.
  intros H Hpq. unfold Qclip.
  destruct (Qle_bool lo p) eqn:P0; destruct (Qle_bool p hi) eqn:P1;
    destruct (Qle_bool lo q) eqn:Q0; destruct (Qle_bool q hi) eqn:Q1;
    repeat match goal with
           | E : Qle_bool _ _ = true |- _ => apply Qle_bool_iff in E
           | E : Qle_bool _ _ = false |- _ => apply Qle_bool_false in E
           end; lra.
Qed.

Lemma Qclip_dentro (lo hi q : Q) : lo <= q -> q <= hi -> Qclip lo hi q = q.
Proof.
  intros H0 H1. unfold Qclip.
  apply Qle_bool_iff in H0, H1. now rewrite H0, H1.
Qed.

(** ** Binary formats *)

(** Every integer of [0, 255] is a binary32 value: the copy to [float32]
    keeps it. *)
Lemma astype_float32_uint8 (z : Z) :
  (0 <= z <= 255)%Z -> astype_float32 (of_Z z) = of_Z z.
Proof.
  intros Hz.
  assert (H : forallb (fun n => match astype_float32 (of_Z (Z.of_nat n)) with
                                | Fin q => Qeq_bool q (inject_Z (Z.of_nat n))
                                           && (Qden q =? 1)%positive
                                | _ => false
                                end) (seq 0 256) = true) by (vm_compute; reflexivity).
  rewrite forallb_forall in H. specialize (H (Z.to_nat z)).
  rewrite Z2Nat.id in H by lia.
  destruct (astype_float32 (of_Z z)) as [| | [n d] |];
    try (discriminate H; apply in_seq; lia).
  assert (Hin : In (Z.to_nat z) (seq 0 256)) by (apply in_seq; lia).
  specialize (H Hin). apply andb_prop in H as [H1 H2].
  apply Pos.eqb_eq in H2. cbn [Qden] in H2. subst d.
  apply Qeq_bool_iff in H1. unfold Qeq in H1. cbn [Qnum Qden inject_Z] in H1.
  unfold of_Z, inject_Z. do 2 f_equal. lia.
Qed.

Lemma pow2_pos (z : Z) : 0 < pow2 z.
Proof.
  destruct z as [| p | p]; cbn [pow2]; [reflexivity | | reflexivity].
  change 0 with (inject_Z 0). rewrite <- Zlt_Qlt, Z.pow_pos_fold.
  apply Z.pow_pos_nonneg; lia.
Qed.

Lemma pow2_nonneg (z : Z) : (0 <= z)%Z -> pow2 z = inject_Z (2 ^ z).
Proof.
  destruct z as [| p | p]; cbn [pow2]; intros H; [reflexivity | | lia].
  now rewrite Z.pow_pos_fold.
Qed.

Lemma pow2_mono (a b : Z) : (a <= b)%Z -> pow2 a <= pow2 b.
Proof.
  assert (P : forall p, (1 <= 2 ^ Z.pos p)%Z).
  { intros p. change 1%Z with (2 ^ 0)%Z. apply Z.pow_le_mono_r; lia. }
  assert (M : forall p q, (Z.pos p <= Z.pos q)%Z -> (2 ^ Z.pos p <= 2 ^ Z.pos q)%Z).
  { intros p q H. apply Z.pow_le_mono_r; lia. }
  destruct a as [| p | p], b as [| q | q]; cbn [pow2]; intros H; try lia;
    rewrite ?Z.pow_pos_fold; unfold Qle; cbn [Qnum Qden inject_Z];
    rewrite ?Pos2Z.inj_pow.
  - reflexivity.
  - specialize (P q). lia.
  - specialize (M p q H). lia.
  - specialize (P p). lia.
  - pose proof (P p). pose proof (P q). nia.
  - specialize (M q p ltac:(lia)). lia.
Qed.

(** The exponent of a rational below [2 ^ k] is below [k]. *)
Lemma exponente_cota (q : Q) (k : Z) :
  (0 <= k)%Z -> Qabs q < pow2 k -> (exponente q < k)%Z.
Proof.
  intros Hk Hq. unfold exponente.
  set (l := (Z.log2 (Z.abs (Qnum q)) - Z.log2 (Z.pos (Qden q)))%Z).
  destruct (Qle_bool (pow2 l) (Qabs q)) eqn:E.
  - apply Qle_bool_iff in E.
    destruct (Z_lt_le_dec l k) as [L | L]; [exact L | exfalso].
    pose proof (pow2_mono k l L). lra.
  - enough (l <= k)%Z by lia. subst l.
    rewrite (pow2_nonneg k Hk) in Hq. destruct q as [n d].
    unfold Qlt in Hq. cbn [Qabs Qnum Qden inject_Z] in *.
    assert (Hp : (0 < 2 ^ k)%Z) by (apply Z.pow_pos_nonneg; lia).
    assert (H : (Z.log2 (Z.abs n) <= Z.log2 (Z.pos d * 2 ^ k))%Z)
      by (apply Z.log2_le_mono; lia).
    rewrite Z.log2_mul_pow2 in H by lia. lia.
Qed.

(** Below 256, in a format with at least ten digits, rounding gives a
    finite value within half a unit of the last place. *)
Lemma redondeo_cerca (p emax : Z) (q : Q) :
  (10 <= p)%Z -> (8 <= emax)%Z -> Qabs q < 256 ->
  exists r, redondeo p emax q = Fin r /\ Qabs (r - q) <= pow2 (8 - p) * (1 # 2).
Proof.
  intros Hp He Hq. unfold redondeo.
  set (x := Z.max (exponente q - (p - 1)) (2 - emax - p)).
  assert (Hx : (x <= 8 - p)%Z).
  { pose proof (exponente_cota q 8 ltac:(lia) Hq). subst x. lia. }
  pose proof (pow2_pos x) as Hu. pose proof (pow2_mono _ _ Hx) as Hu'.
  assert (H4 : pow2 (8 - p) <= 1 # 4) by (apply (pow2_mono _ (-2)); lia).
  assert (H9 : 512 <= pow2 (emax + 1)) by (apply (pow2_mono 9); lia).
  set (u := pow2 x) in *. set (w := pow2 (8 - p)) in *.
  pose proof (round_half_even_error (q / u)) as [K1 K2].
  set (k := inject_Z (round_half_even (q / u))) in *.
  assert (Eq : q == (q / u) * u) by (field; lra).
  assert (B1 : (k - q / u) * u <= (1 # 2) * u) by (apply Qmult_le_compat_r; lra).
  assert (B2 : (- (1 # 2)) * u <= (k - q / u) * u) by (apply Qmult_le_compat_r; lra).
  assert (Er : k * u - q == (k - q / u) * u) by (rewrite Eq at 1; ring).
  assert (Ha : Qabs (k * u - q) <= w * (1 # 2)).
  { apply Qabs_Qle_condition. rewrite Er. split; lra. }
  apply Qabs_Qle_condition in Ha. destruct Ha as [Ha1 Ha2].
  assert (Hq' : - 256 < q /\ q < 256).
  { split.
    - pose proof (Qle_Qabs (- q)). rewrite Qabs_opp in H. lra.
    - pose proof (Qle_Qabs q). lra. }
  assert (F : Qle_bool (pow2 (emax + 1)) (Qabs (k * u)) = false).
  { apply Qle_bool_false. apply Qabs_Qlt_condition. split; lra. }
  rewrite F. eexists. split; [reflexivity |].
  apply Qabs_Qle_condition. rewrite Qred_correct. split; lra.
Qed.

(** The product by 255 of a value of [0, 1], in the float type of the
    array: within 2^-17 of the exact product. *)
Lemma por_255_cerca (d : np_dtype) (q : Q) :
  0 <= q -> q <= 1 ->
  exists r, por_255 d (Fin q) = Fin r /\ Qabs (r - 255 * q) <= 1 # 131072.
Proof.
  intros H0 H1.
  set (v := Qred (q * inject_Z 255)).
  assert (Ev : v == 255 * q) by (subst v; rewrite Qred_correct; ring).
  assert (Hv : Qabs v < 256).
  { apply Qabs_Qlt_condition. rewrite Ev. split; lra. }
  assert (G : forall p emax, (24 <= p)%Z -> (8 <= emax)%Z ->
              exists r, redondeo p emax v = Fin r /\ Qabs (r - 255 * q) <= 1 # 131072).
  { intros p emax Hp He.
    destruct (redondeo_cerca p emax v ltac:(lia) He Hv) as (r & Hr & Hb).
    exists r. split; [exact Hr |].
    assert (H16 : pow2 (8 - p) <= 1 # 65536) by (apply (pow2_mono _ (-16)); lia).
    apply Qabs_Qle_condition in Hb. apply Qabs_Qle_condition.
    rewrite <- Ev. split; lra. }
  unfold por_255. cbn [fmul of_Z]. fold v.
  destruct d; cbn [binary32 binary64]; apply G; lia.
Qed.

Lemma astype_float32_datos (l : list pyfloat) :
  (forall x, In x l -> exists z, x = of_Z z /\ (0 <= z <= 255)%Z) ->
  map astype_float32 l = l.
Proof.
  intros H. rewrite <- (map_id l) at 2. apply map_ext_in. intros x Hx.
  destruct (H x Hx) as (z & -> & Hz). now apply astype_float32_uint8.
Qed.

(** ** The classifier *)

Lemma umbral_unidad_hsv (m : pyfloat) :
  fle m umbral_unidad = true ->
  fle m (of_Z 360) = true /\ fle m umbral_sv = true.
Proof.
  intros H. split; eapply fle_trans; try exact H; reflexivity.
Qed.

Section Propiedades.

Variable cvtColor : ndarray -> ColorConversionCodes -> result ndarray.
Variable mse_broadcast : ndarray -> ndarray -> result pyfloat.
Variable cast_indefinido : pyfloat -> Z.

#[local] Abbreviation clasifica := (espacio_color cvtColor mse_broadcast cast_indefinido).
#[local] Abbreviation convierte := (convertir_espacio_color cvtColor mse_broadcast cast_indefinido).
#[local] Abbreviation normaliza := (_ensure_u8_3c cast_indefinido).
#[local] Abbreviation modifica := (modificar_canal cast_indefinido).

(** Splits a hypothesis [H : espacio_color (Some img) = Ok i] along the
    branches of the function, in the order of the source. *)
Ltac ligaduras H :=
  repeat match type of H with
         | context [bind ?e _] =>
             lazymatch e with
             | Ok _ => fail
             | Raise _ => fail
             | _ => destruct e eqn:?; cbn [bind] in H; try discriminate H
             end
         end.

Ltac ramas H img :=
  unfold espacio_color in H;
  destruct (ndim img =? 2)%nat eqn:Egris;
  [ ligaduras H
  | destruct (negb (ndim img =? 3)%nat || negb (shape_at img 2 =? 3)%nat) eqn:Etres;
    [ idtac
    | ligaduras H;
      match type of H with
      | (if ?b then _ else _) = _ =>
          destruct b eqn:Ehsv8;
          [ idtac
          | match type of H with
            | (if ?b then _ else _) = _ =>
                destruct b eqn:Ehsvf;
                [ idtac
                | match type of H with
                  | match ?e with Ok _ => _ | Raise _ => _ end = _ =>
                      destruct e as [[mse_y mse_l] | err] eqn:Eciclos;
                      [ match type of H with
                        | (if ?b then _ else _) = _ => destruct b eqn:Eumbral
                        end
                      | idtac ]
                  end ]
            end ]
      end ] ];
  injection H as <-.

Lemma bgr_por_defecto_flotante (d : np_dtype) (c0 c1 c2 : pyfloat) (i : info) :
  is_floating d = true ->
  (fle c0 (of_Z 360) && fle c1 umbral_sv && fle c2 umbral_sv) = false ->
  bgr_por_defecto d [c0; c1; c2] i = i.
Proof.
  intros Hd Hh. unfold bgr_por_defecto.
  assert (E : dtype_eqb d uint8 = false) by (destruct d; simpl in *; congruence).
  rewrite E, Hd. cbn [andb forallb].
  destruct (fle c0 umbral_unidad) eqn:E0; [| reflexivity].
  destruct (fle c1 umbral_unidad) eqn:E1; [| reflexivity].
  destruct (fle c2 umbral_unidad) eqn:E2; [| reflexivity].
  apply umbral_unidad_hsv in E0 as [E0 _], E1 as [_ E1], E2 as [_ E2].
  rewrite E0, E1, E2 in Hh. discriminate.
Qed.

(** C10: on an image of a floating dtype [espacio_color] never answers
    "BGR/RGB": three maxima within [1.0 + 1e-6] already satisfy the float
    HSV rule (channel 0 within 360, channels 1 and 2 within 1.1), which is
    tested first. *)
Theorem espacio_color_flotante_nunca_bgr :
  (forall c0 c1 c2 : pyfloat,
      forallb (fun m => fle m umbral_unidad) [c0; c1; c2] = true ->
      fle c0 (of_Z 360) && fle c1 umbral_sv && fle c2 umbral_sv = true) /\
  (forall (img : ndarray) (i : info),
      is_floating (dtype img) = true ->
      clasifica (Some img) = Ok i ->
      espacio i <> "BGR/RGB").
Proof.
  split.
  - intros c0 c1 c2 H. cbn [forallb] in H.
    apply andb_prop in H as [H0 H]. apply andb_prop in H as [H1 H].
    apply andb_prop in H as [H2 _].
    apply umbral_unidad_hsv in H0 as [H0 _], H1 as [_ H1], H2 as [_ H2].
    now rewrite H0, H1, H2.
  - intros img i Hf H. ramas H img.
    all: try (rewrite Hf in Ehsvf; cbn [andb] in Ehsvf).
    all: try (rewrite bgr_por_defecto_flotante by assumption).
    all: cbn [espacio set_espacio set_rangos set_ciclos]; discriminate.
Qed.

Lemma bgr_por_defecto_campos (d : np_dtype) (c : list pyfloat) (i : info) :
  rangos (bgr_por_defecto d c i) = rangos i /\
  ciclos (bgr_por_defecto d c i) = ciclos i /\
  info_dtype (bgr_por_defecto d c i) = info_dtype i /\
  info_shape (bgr_por_defecto d c i) = info_shape i /\
  (espacio (bgr_por_defecto d c i) = espacio i \/
   espacio (bgr_por_defecto d c i) = "BGR/RGB").
Proof.
  unfold bgr_por_defecto.
  destruct (dtype_eqb d uint8 && _); [cbn; auto 6 |].
  destruct (is_floating d && _); cbn; auto 6.
Qed.

Lemma bgr_por_defecto_etiqueta (d : np_dtype) (c : list pyfloat) (i : info) :
  In (espacio i) etiquetas -> In (espacio (bgr_por_defecto d c i)) etiquetas.
Proof.
  intros H. destruct (bgr_por_defecto_campos d c i) as (_ & _ & _ & _ & [-> | ->]).
  - exact H.
  - cbn. tauto.
Qed.

Lemma rango_ordenado (l : list pyfloat) (mn mx : pyfloat) :
  np_min l = Ok mn -> np_max l = Ok mx -> sin_nan l = true ->
  fle (py_round mn 2) (py_round mx 2) = true.
Proof.
  intros Hmn Hmx Hn. apply py_round_mono. now apply (np_min_le_max l).
Qed.

(** C8, as amended: the label of a classification is one of the five
    documented ones, and on an array without NaN every recorded range has
    its minimum below its maximum. *)
Theorem espacio_color_invariantes (img : option ndarray) (i : info) :
  clasifica img = Ok i ->
  In (espacio i) etiquetas /\
  (forall a, img = Some a -> sin_nan (data a) = true ->
   forall r k lo hi, rangos i = Some r -> In (k, (lo, hi)) r -> fle lo hi = true).
Proof.
  intros H. destruct img as [img |].
  2:{ unfold espacio_color in H. injection H as <-. split.
      - cbn. tauto.
      - intros a Ha. discriminate. }
  split.
  - ramas H img; try apply bgr_por_defecto_etiqueta; cbn; tauto.
  - intros a Ha Hn r k lo hi Hr Hin. injection Ha as <-.
    ramas H img;
      try (rewrite (proj1 (bgr_por_defecto_campos _ _ _)) in Hr);
      cbn in Hr; try discriminate Hr; injection Hr as <-;
      cbn in Hin;
      repeat (destruct Hin as [Hin | Hin]; [injection Hin as _ <- <- |]);
      try contradiction;
      eapply rango_ordenado; eauto using canal_sin_nan.
Qed.

Lemma tres_canales_inv (a : ndarray) :
  tres_canales a = true -> exists h w, shape a = [h; w; 3%nat].
Proof.
  unfold tres_canales, ndim, shape_at. intros H.
  apply andb_prop in H as [H1 H2].
  apply Nat.eqb_eq in H1, H2.
  destruct (shape a) as [| h [| w [| c [| ? ?]]]]; simpl in *; try discriminate.
  subst c. now exists h, w.
Qed.

Lemma tres_canales_datos (a : ndarray) :
  well_formed a = true -> tres_canales a = true -> data a <> [] ->
  (3 <= List.length (data a))%nat.
Proof.
  intros Hw Ht Hd. destruct (tres_canales_inv a Ht) as (h & w & Hs).
  unfold well_formed in Hw. apply andb_prop in Hw as [Hl _].
  apply Nat.eqb_eq in Hl. rewrite Hs in Hl. cbn [fold_right] in Hl.
  destruct (data a) as [| x r]; [congruence |]. simpl in *.
  destruct h; [simpl in Hl; discriminate |].
  destruct w; [rewrite Nat.mul_0_l, Nat.mul_0_r in Hl; discriminate |]. lia.
Qed.

Lemma tres_canales_ramas (a : ndarray) :
  tres_canales a = true ->
  (ndim a =? 2)%nat = false /\
  negb (ndim a =? 3)%nat || negb (shape_at a 2 =? 3)%nat = false.
Proof.
  unfold tres_canales. intros H. apply andb_prop in H as [H1 H2].
  rewrite H1, H2. apply Nat.eqb_eq in H1. rewrite H1. split; reflexivity.
Qed.

(** C2, as amended: [espacio_color] answers a classification for a missing
    image and for every array with at least one element; and when the
    Lab/YCrCb cycles raise, on an image with three channels, the error is
    dropped: the answer is either the HSV label of the earlier step or what
    the default step makes of the information gathered so far, with no
    cycle error recorded. *)
Theorem espacio_color_no_lanza :
  clasifica None = Ok info_inicial /\
  (forall img,
      well_formed img = true -> data img <> [] ->
      exists i, clasifica (Some img) = Ok i) /\
  (forall img e,
      well_formed img = true -> data img <> [] -> tres_canales img = true ->
      ciclos_lab_ycrcb cvtColor mse_broadcast cast_indefinido img = Raise e ->
      exists x0 x1 x2 i0,
        np_max (canal 0 (data img)) = Ok x0 /\
        np_max (canal 1 (data img)) = Ok x1 /\
        np_max (canal 2 (data img)) = Ok x2 /\
        espacio i0 = "Desconocido" /\ ciclos i0 = [] /\
        (clasifica (Some img) = Ok (set_espacio "HSV" i0) \/
         clasifica (Some img) = Ok (bgr_por_defecto (dtype img) [x0; x1; x2] i0))).
Proof.
  split; [reflexivity |]. split.
  - intros img Hw Hd. unfold espacio_color.
    destruct (ndim img =? 2)%nat eqn:Egris.
    { destruct (np_min_ok _ Hd) as [mn ->], (np_max_ok _ Hd) as [mx ->].
      cbn [bind]. eexists; reflexivity. }
    destruct (negb (ndim img =? 3)%nat || negb (shape_at img 2 =? 3)%nat) eqn:Etres.
    { eexists; reflexivity. }
    assert (Ht : tres_canales img = true).
    { unfold tres_canales. apply orb_false_elim in Etres as [E1 E2].
      apply negb_false_iff in E1, E2. now rewrite E1, E2. }
    pose proof (tres_canales_datos img Hw Ht Hd) as Hl.
    destruct (np_min_ok _ (canal_no_vacio 0 _ Hl)) as [n0 ->].
    destruct (np_min_ok _ (canal_no_vacio 1 _ Hl)) as [n1 ->].
    destruct (np_min_ok _ (canal_no_vacio 2 _ Hl)) as [n2 ->].
    destruct (np_max_ok _ (canal_no_vacio 0 _ Hl)) as [x0 ->].
    destruct (np_max_ok _ (canal_no_vacio 1 _ Hl)) as [x1 ->].
    destruct (np_max_ok _ (canal_no_vacio 2 _ Hl)) as [x2 ->].
    cbn [bind].
    destruct (dtype_eqb _ _ && _ && _ && _); [eexists; reflexivity |].
    destruct (is_floating _ && _); [eexists; reflexivity |].
    destruct (ciclos_lab_ycrcb _ _ _ img) as [[my ml] | e'];
      [destruct (flt my _ || flt ml _) |]; eexists; reflexivity.
  - intros img e Hw Hd Ht He. unfold espacio_color.
    destruct (tres_canales_ramas img Ht) as [-> ->].
    pose proof (tres_canales_datos img Hw Ht Hd) as Hl.
    destruct (np_min_ok _ (canal_no_vacio 0 _ Hl)) as [n0 ->].
    destruct (np_min_ok _ (canal_no_vacio 1 _ Hl)) as [n1 ->].
    destruct (np_min_ok _ (canal_no_vacio 2 _ Hl)) as [n2 ->].
    destruct (np_max_ok _ (canal_no_vacio 0 _ Hl)) as [x0 E0].
    destruct (np_max_ok _ (canal_no_vacio 1 _ Hl)) as [x1 E1].
    destruct (np_max_ok _ (canal_no_vacio 2 _ Hl)) as [x2 E2].
    rewrite E0, E1, E2. cbn [bind]. rewrite He.
    exists x0, x1, x2.
    eexists (set_rangos _ (mk_info "Desconocido" _ _ None [])).
    repeat (split; [reflexivity |]).
    destruct (dtype_eqb _ _ && _ && _ && _); [left; reflexivity |].
    destruct (is_floating _ && _); [left; reflexivity | right; reflexivity].
Qed.

(** C3, as amended: a two-dimensional array with at least one element is
    labelled "GRAY" at once, with the single range "Canal" holding NumPy's
    minimum and maximum rounded to two decimals.  Without NaN these are a
    least and a greatest element of the array; with a NaN both are NaN;
    and on integer elements the rounding changes nothing. *)
Theorem espacio_color_gris (img : ndarray) :
  ndim img = 2%nat -> data img <> [] ->
  exists mn mx,
    np_min (data img) = Ok mn /\ np_max (data img) = Ok mx /\
    clasifica (Some img) =
      Ok (mk_info "GRAY" (Some (dtype_str (dtype img))) (Some (shape img))
            (Some [("Canal", (py_round mn 2, py_round mx 2))]) []) /\
    (sin_nan (data img) = true ->
       es_minimo mn (data img) /\ es_maximo mx (data img)) /\
    (sin_nan (data img) = false -> mn = NaN /\ mx = NaN) /\
    (forallb is_int_val (data img) = true ->
       es_minimo mn (data img) /\ es_maximo mx (data img) /\
       py_round mn 2 = mn /\ py_round mx 2 = mx).
Proof.
  intros Hn Hd.
  destruct (np_min_ok _ Hd) as [mn Hmn], (np_max_ok _ Hd) as [mx Hmx].
  exists mn, mx. split; [exact Hmn |]. split; [exact Hmx |]. split.
  { unfold espacio_color. rewrite Hn, Hmn, Hmx. reflexivity. }
  assert (Hs : sin_nan (data img) = true ->
               es_minimo mn (data img) /\ es_maximo mx (data img)).
  { intros Hs. split; [now apply np_min_minimo | now apply np_max_maximo]. }
  split; [exact Hs |]. split.
  - intros Hs'. destruct (data img) as [| x r]; [congruence |].
    simpl in Hmn, Hmx. injection Hmn as <-. injection Hmx as <-.
    split; [now apply fold_fmin2_nan | now apply fold_fmax2_nan].
  - intros Hi.
    assert (Hs' : sin_nan (data img) = true).
    { apply sin_nan_forall. intros x Hx.
      rewrite forallb_forall in Hi. specialize (Hi x Hx).
      destruct x; try discriminate; reflexivity. }
    destruct (Hs Hs') as [[Hin1 Hle1] [Hin2 Hle2]].
    rewrite forallb_forall in Hi.
    repeat split; auto using py_round_int.
Qed.


(** *** The converter *)

Lemma bgr_por_defecto_bgr (d : np_dtype) (c0 c1 c2 : pyfloat) (i : info) :
  espacio i = "Desconocido" ->
  espacio (bgr_por_defecto d [c0; c1; c2] i) = "BGR/RGB" ->
  (is_floating d && (fle c0 (of_Z 360) && fle c1 umbral_sv && fle c2 umbral_sv)) = false ->
  d = uint8.
Proof.
  intros Hi H Hf. destruct (is_floating d) eqn:Ed.
  - cbn [andb] in Hf. rewrite bgr_por_defecto_flotante in H by assumption.
    rewrite Hi in H. discriminate.
  - unfold bgr_por_defecto in H. rewrite Ed in H. cbn [andb] in H.
    destruct (dtype_eqb d uint8) eqn:Eu.
    + destruct d; try discriminate; reflexivity.
    + cbn [andb] in H. rewrite Hi in H. discriminate.
Qed.

(** Only a [uint8] image with three channels and at least one pixel is
    labelled "BGR/RGB". *)
Lemma espacio_color_bgr_inv (img : ndarray) (i : info) :
  clasifica (Some img) = Ok i -> espacio i = "BGR/RGB" ->
  dtype img = uint8 /\ tres_canales img = true /\ data img <> [].
Proof.
  intros H Hb. ramas H img; cbn in Hb; try discriminate Hb.
  all: assert (Ht : tres_canales img = true)
    by (unfold tres_canales; apply orb_false_elim in Etres as [E1 E2];
        apply negb_false_iff in E1, E2; now rewrite E1, E2).
  all: assert (Hd : data img <> [])
    by (intros C; rewrite C in *; discriminate).
  all: split; [| split; assumption].
  all: eapply bgr_por_defecto_bgr; [| exact Hb | exact Ehsvf]; reflexivity.
Qed.

(** C5: the table holds six conversions; a pair that it does not hold
    raises a [ValueError] whose message names the label found and the label
    asked for, so it is for the label "Desconocido" and for HSV to Lab; a
    pair that it holds hands the image to [cv2.cvtColor] with the code of
    the table, and for an image labelled "BGR/RGB" converted to HSV OpenCV
    answers an array of the same shape (h, w, 3). *)
Theorem convertir_espacio_color_tabla :
  List.length conversiones = 6%nat /\
  (forall img destino i,
      clasifica img = Ok i ->
      dict_get (espacio i, destino) conversiones = None ->
      convierte img destino =
        Raise (ValueError ("Conversión no soportada: " ++ espacio i ++ " -> " ++ destino))) /\
  (forall img destino i,
      clasifica img = Ok i -> espacio i = "Desconocido" ->
      convierte img destino =
        Raise (ValueError ("Conversión no soportada: Desconocido -> " ++ destino))) /\
  (forall img i,
      clasifica img = Ok i -> espacio i = "HSV" ->
      convierte img "Lab" = Raise (ValueError "Conversión no soportada: HSV -> Lab")) /\
  (forall img destino i code,
      clasifica (Some img) = Ok i ->
      dict_get (espacio i, destino) conversiones = Some code ->
      convierte (Some img) destino = cvtColor img code) /\
  (cv2_bgr2hsv cvtColor ->
   forall img i,
      well_formed img = true ->
      clasifica (Some img) = Ok i -> espacio i = "BGR/RGB" ->
      exists dst h w,
        convierte (Some img) "HSV" = Ok dst /\
        shape img = [h; w; 3%nat] /\ shape dst = [h; w; 3%nat]).
Proof.
  split; [reflexivity |]. split; [| split; [| split; [| split]]].
  - intros img destino i H Hg. unfold convertir_espacio_color.
    rewrite H. cbn [bind]. rewrite Hg. reflexivity.
  - intros img destino i H Hl. unfold convertir_espacio_color.
    rewrite H. cbn [bind]. rewrite Hl. reflexivity.
  - intros img i H Hl. unfold convertir_espacio_color.
    rewrite H. cbn [bind]. rewrite Hl. reflexivity.
  - intros img destino i code H Hg. unfold convertir_espacio_color.
    rewrite H. cbn [bind]. rewrite Hg. reflexivity.
  - intros Hcv img i Hw H Hl.
    destruct (espacio_color_bgr_inv img i H Hl) as (Hd & Ht & Hne).
    assert (Hu : es_uint8 img = true).
    { unfold es_uint8, valores_uint8. unfold well_formed in Hw. rewrite Hd in *.
      apply andb_prop in Hw as [_ Hw]. exact Hw. }
    destruct (Hcv img Hu Ht Hne) as (dst & Hdst & Hs).
    destruct (tres_canales_inv img Ht) as (h & w & Hshape).
    exists dst, h, w. split; [| split; congruence].
    unfold convertir_espacio_color. rewrite H. cbn [bind]. rewrite Hl. exact Hdst.
Qed.

(** *** The channel modifier *)

Lemma trunc_int (q : Q) (z : Z) : q == inject_Z z -> trunc q = z.
Proof.
  unfold Qeq, trunc. cbn [inject_Z Qnum Qden]. intros H.
  rewrite Z.mul_1_r in H. rewrite H. apply Z.quot_mul. discriminate.
Qed.

Lemma trunc_floor (q : Q) : 0 <= q -> trunc q = Qfloor q.
Proof.
  destruct q as [n d]. unfold Qle, trunc, Qfloor. cbn [Qnum Qden].
  intros H. apply Z.quot_div_nonneg; lia.
Qed.

(** Within [0, 255] the conversion to [uint8] is the floor. *)
Lemma astype_uint8_rango (q : Q) :
  0 <= q -> q <= 255 -> astype_uint8 cast_indefinido (Fin q) = of_Z (Qfloor q).
Proof.
  intros H0 H1. unfold astype_uint8.
  assert (E1 : Qle_bool q (-1 # 1) = false) by (apply Qle_bool_false; lra).
  assert (E2 : Qle_bool 256 q = false) by (apply Qle_bool_false; lra).
  rewrite E1, E2. cbn [negb andb]. now rewrite trunc_floor.
Qed.

Lemma astype_uint8_int (q : Q) (z : Z) :
  q == inject_Z z -> (0 <= z <= 255)%Z ->
  astype_uint8 cast_indefinido (Fin q) = of_Z z.
Proof.
  intros H Hz. rewrite astype_uint8_rango.
  - now rewrite (Qfloor_comp _ _ H), Qfloor_Z.
  - rewrite H. change 0 with (inject_Z 0). rewrite <- Zle_Qle. lia.
  - rewrite H. change 255 with (inject_Z 255). rewrite <- Zle_Qle. lia.
Qed.

(** What [np.clip(x, 0, 255).astype(np.uint8)] stores for a finite [x]. *)
Lemma clip_astype_floor (v : Q) :
  astype_uint8 cast_indefinido (np_clip 0 255 (Fin v)) = of_Z (Qfloor (Qclip 0 255 v)).
Proof.
  cbn [np_clip]. destruct (Qclip_rango 0 255 v) as [H0 H1]; [lra |].
  now apply astype_uint8_rango.
Qed.

Lemma clip_astype (v : Q) :
  exists k, astype_uint8 cast_indefinido (np_clip 0 255 (Fin v)) = of_Z k /\
            (0 <= k <= 255)%Z /\
            (forall z, (0 <= z <= 255)%Z -> inject_Z z <= v -> (z <= k)%Z) /\
            (forall z, (0 <= z <= 255)%Z -> v <= inject_Z z -> (k <= z)%Z).
Proof.
  exists (Qfloor (Qclip 0 255 v)). split; [apply clip_astype_floor |].
  destruct (Qclip_rango 0 255 v) as [H0 H1]; [lra |].
  assert (Hz : forall z, (0 <= z <= 255)%Z -> Qclip 0 255 (inject_Z z) = inject_Z z).
  { intros z Hz. apply Qclip_dentro.
    - change 0 with (inject_Z 0). rewrite <- Zle_Qle. lia.
    - change 255 with (inject_Z 255). rewrite <- Zle_Qle. lia. }
  split; [| split].
  - split.
    + rewrite <- (Qfloor_Z 0). now apply Qfloor_resp_le.
    + rewrite <- (Qfloor_Z 255). now apply Qfloor_resp_le.
  - intros z Hzr Hv. rewrite <- (Qfloor_Z z). apply Qfloor_resp_le.
    rewrite <- (Hz z Hzr). apply Qclip_mono; [lra | exact Hv].
  - intros z Hzr Hv. rewrite <- (Qfloor_Z z). apply Qfloor_resp_le.
    rewrite <- (Hz z Hzr). apply Qclip_mono; [lra | exact Hv].
Qed.

(** [np.clip(x, 0, 255).astype(np.uint8)] is monotone on finite values. *)
Lemma clip_astype_mono (v w : Q) :
  v <= w ->
  (valor (astype_uint8 cast_indefinido (np_clip 0 255 (Fin v))) <=
   valor (astype_uint8 cast_indefinido (np_clip 0 255 (Fin w))))%Z.
Proof.
  intros H. rewrite !clip_astype_floor. unfold valor, of_Z.
  rewrite !(trunc_int _ _ (Qeq_refl _)).
  apply Qfloor_resp_le. apply Qclip_mono; [lra | exact H].
Qed.

Lemma valor_of_Z (z : Z) : valor (of_Z z) = z.
Proof. unfold valor, of_Z. now apply trunc_int. Qed.

Lemma valores_uint8_inv (c : ndarray) :
  valores_uint8 c = true ->
  forall x, In x (data c) -> exists z, x = of_Z z /\ (0 <= z <= 255)%Z.
Proof.
  unfold valores_uint8. intros Hv x Hx.
  rewrite forallb_forall in Hv. now apply is_uint8_val_inv, Hv.
Qed.

Lemma como_uint8_id (c : ndarray) : dtype c = uint8 -> como_uint8 c = c.
Proof. destruct c as [d sh l]. unfold como_uint8. cbn. now intros ->. Qed.

Lemma map_id_in {A : Type} (f : A -> A) (l : list A) :
  (forall x, In x l -> f x = x) -> map f l = l.
Proof.
  intros H. rewrite <- (map_id l) at 2. now apply map_ext_in.
Qed.

Lemma invertir_uint8 (z : Z) :
  (0 <= z <= 255)%Z ->
  astype_uint8 cast_indefinido (fsub (of_Z 255) (astype_float32 (of_Z z))) = of_Z (255 - z).
Proof.
  intros Hz. rewrite (astype_float32_uint8 z Hz). unfold fsub, fneg, fadd, of_Z.
  apply astype_uint8_int; [| lia].
  rewrite !Qred_correct. unfold Z.sub. rewrite inject_Z_plus, inject_Z_opp. reflexivity.
Qed.

(** C6: on a channel of integers of [0, 255], inverting twice gives the
    elements back, as a [uint8] array of the same shape: the channel itself
    when its dtype is [uint8]. *)
Theorem modificar_canal_invertir_dos_veces (c : ndarray) (f1 f2 : pyfloat) :
  valores_uint8 c = true ->
  modifica (modifica c "invertir" f1) "invertir" f2 = como_uint8 c /\
  (dtype c = uint8 -> modifica (modifica c "invertir" f1) "invertir" f2 = c).
Proof.
  intros H. pose proof (valores_uint8_inv c H) as Hv.
  assert (E : modifica (modifica c "invertir" f1) "invertir" f2 = como_uint8 c).
  { unfold modificar_canal, como_uint8. cbn [String.eqb Ascii.eqb Bool.eqb shape data].
    f_equal. rewrite !map_map. apply map_id_in. intros x Hx.
    destruct (Hv x Hx) as (z & -> & Hz).
    rewrite (invertir_uint8 z Hz), invertir_uint8 by lia.
    f_equal. lia. }
  split; [exact E |]. intros Hd. rewrite E. now apply como_uint8_id.
Qed.

(** C9: an operation that is none of "brillo", "contraste" and "invertir"
    is not an error: every element goes through the copy to [float32],
    the nearest binary32 value, and the conversion to [uint8], and through
    nothing else; this gives integers of [0, 255] back as they were, and a
    [uint8] channel back as it was.  The copy of an element below 256 in
    magnitude is finite and within 2^-17 of the element. *)
Theorem modificar_canal_otra_operacion (c : ndarray) (operacion : string) (factor : pyfloat) :
  operacion <> "brillo" -> operacion <> "contraste" -> operacion <> "invertir" ->
  modifica c operacion factor =
    mk_ndarray uint8 (shape c)
      (map (fun x => astype_uint8 cast_indefinido (astype_float32 x)) (data c)) /\
  (valores_uint8 c = true -> modifica c operacion factor = como_uint8 c) /\
  (es_uint8 c = true -> modifica c operacion factor = c) /\
  (forall q : Q, Qabs q < 256 ->
     exists r, astype_float32 (Fin q) = Fin r /\ Qabs (r - q) <= 1 # 131072).
Proof.
  intros H1 H2 H3. apply String.eqb_neq in H1, H2, H3.
  assert (E : modifica c operacion factor =
              mk_ndarray uint8 (shape c)
                (map (fun x => astype_uint8 cast_indefinido (astype_float32 x)) (data c))).
  { unfold modificar_canal. rewrite H1, H2, H3. now rewrite map_map. }
  assert (E' : valores_uint8 c = true -> modifica c operacion factor = como_uint8 c).
  { intros H. rewrite E. unfold como_uint8. f_equal.
    apply map_id_in. intros x Hx.
    destruct (valores_uint8_inv c H x Hx) as (z & -> & Hz).
    rewrite (astype_float32_uint8 z Hz). now apply astype_uint8_int. }
  split; [exact E |]. split; [exact E' |]. split.
  - intros H. unfold es_uint8 in H. apply andb_prop in H as [Hd Hv].
    rewrite (E' Hv). apply como_uint8_id.
    destruct (dtype c); try discriminate; reflexivity.
  - intros q Hq.
    destruct (redondeo_cerca 24 127 q ltac:(lia) ltac:(lia) Hq) as (r & Hr & Hb).
    exists r. split; [exact Hr |].
    eapply Qle_trans; [exact Hb |]. vm_compute. discriminate.
Qed.

Lemma maximo_cota (l : list Z) (d z : Z) : In z l -> (z <= fold_right Z.max d l)%Z.
Proof.
  induction l as [| x r IH]; simpl; [tauto |].
  intros [<- | H]; [lia |]. specialize (IH H). lia.
Qed.

Lemma minimo_cota (l : list Z) (d z : Z) : In z l -> (fold_right Z.min d l <= z)%Z.
Proof.
  induction l as [| x r IH]; simpl; [tauto |].
  intros [<- | H]; [lia |]. specialize (IH H). lia.
Qed.

Lemma maximo_In (l : list Z) : l <> [] -> In (maximo l) l.
Proof.
  intros Hl. unfold maximo.
  assert (G : forall d r, fold_right Z.max d r = d \/ In (fold_right Z.max d r) r).
  { intros d r. induction r as [| x r IH]; simpl; [now left |].
    destruct (Z.max_spec x (fold_right Z.max d r)) as [[_ ->] | [_ ->]]; [| now right; left].
    destruct IH as [-> | IH]; [now left | now right; right]. }
  destruct l as [| x r]; [congruence |].
  destruct (G (hd 0%Z (x :: r)) (x :: r)) as [-> | H]; [now left | exact H].
Qed.

Lemma minimo_In (l : list Z) : l <> [] -> In (minimo l) l.
Proof.
  intros Hl. unfold minimo.
  assert (G : forall d r, fold_right Z.min d r = d \/ In (fold_right Z.min d r) r).
  { intros d r. induction r as [| x r IH]; simpl; [now left |].
    destruct (Z.min_spec x (fold_right Z.min d r)) as [[_ ->] | [_ ->]]; [now right; left |].
    destruct IH as [-> | IH]; [now left | now right; right]. }
  destruct l as [| x r]; [congruence |].
  destruct (G (hd 0%Z (x :: r)) (x :: r)) as [-> | H]; [now left | exact H].
Qed.

Lemma suma_cotas (l : list Z) (a b : Z) :
  (forall z, In z l -> (a <= z <= b)%Z) ->
  (a * Z.of_nat (List.length l) <= sumaZ l <= b * Z.of_nat (List.length l))%Z.
Proof.
  induction l as [| x r IH]; intros H.
  - simpl. lia.
  - assert (Hx : (a <= x <= b)%Z) by (apply H; now left).
    assert (Hr : forall z, In z r -> (a <= z <= b)%Z) by (intros z Hz; apply H; now right).
    specialize (IH Hr). cbn [sumaZ fold_right List.length] in *.
    fold (sumaZ r). rewrite Nat2Z.inj_succ. lia.
Qed.

Lemma fold_fadd_uint8 (l : list pyfloat) :
  (forall x, In x l -> exists z, x = of_Z z /\ (0 <= z <= 255)%Z) ->
  forall a, exists s,
    fold_left fadd l (Fin a) = Fin s /\ s == a + inject_Z (sumaZ (map valor l)).
Proof.
  induction l as [| x r IH]; intros H a.
  - exists a. split; [reflexivity |]. simpl. ring.
  - destruct (H x (or_introl eq_refl)) as (z & -> & Hz).
    assert (Hr : forall y, In y r -> exists z, y = of_Z z /\ (0 <= z <= 255)%Z)
      by (intros y Hy; apply H; now right).
    destruct (IH Hr (Qred (a + inject_Z z))) as (s & Hs & Es).
    exists s. split; [exact Hs |].
    rewrite Es, Qred_correct. cbn [map sumaZ fold_right]. fold (sumaZ (map valor r)).
    rewrite valor_of_Z, inject_Z_plus. ring.
Qed.

(** The mean of a [uint8] channel lies between its least and its greatest
    element. *)
Lemma media_uint8 (l : list pyfloat) :
  l <> [] ->
  (forall x, In x l -> exists z, x = of_Z z /\ (0 <= z <= 255)%Z) ->
  exists m, np_mean (map astype_float32 l) = Fin m /\
            inject_Z (minimo (map valor l)) <= m <= inject_Z (maximo (map valor l)).
Proof.
  intros Hl H.
  rewrite (astype_float32_datos l H).
  destruct (fold_fadd_uint8 l H 0) as (s & Hs & Es).
  set (n := List.length l). assert (Hn : (0 < Z.of_nat n)%Z).
  { subst n. destruct l; [congruence | simpl; lia]. }
  exists (Qred (s / inject_Z (Z.of_nat n))). split.
  - unfold np_mean. destruct l as [| x r]; [congruence |].
    change (of_Z 0) with (Fin 0). rewrite Hs. reflexivity.
  - rewrite Qred_correct, Es, Qplus_0_l.
    assert (Hq : 0 < inject_Z (Z.of_nat n)) by (rewrite Zlt_Qlt in Hn; exact Hn).
    pose proof (suma_cotas (map valor l) (minimo (map valor l)) (maximo (map valor l))) as B.
    rewrite length_map in B. fold n in B.
    destruct B as [B1 B2].
    { intros z Hz. split; [now apply minimo_cota | now apply maximo_cota]. }
    split.
    + apply Qle_shift_div_l; [exact Hq |]. rewrite <- inject_Z_mult, <- Zle_Qle. exact B1.
    + apply Qle_shift_div_r; [exact Hq |]. rewrite <- inject_Z_mult, <- Zle_Qle. exact B2.
Qed.

Lemma contraste_valor (z : Z) (m f : Q) :
  (0 <= z <= 255)%Z ->
  exists v,
    fadd (fmul (fsub (astype_float32 (of_Z z)) (Fin m)) (Fin f)) (Fin m) = Fin v /\
    v == (inject_Z z - m) * f + m.
Proof.
  intros Hz. rewrite (astype_float32_uint8 z Hz).
  eexists. split; [reflexivity |]. rewrite !Qred_correct. reflexivity.
Qed.

Lemma maximo_le (l : list Z) (b : Z) :
  l <> [] -> (forall z, In z l -> (z <= b)%Z) -> (maximo l <= b)%Z.
Proof. intros Hl H. apply H. now apply maximo_In. Qed.

Lemma minimo_ge (l : list Z) (b : Z) :
  l <> [] -> (forall z, In z l -> (b <= z)%Z) -> (b <= minimo l)%Z.
Proof. intros Hl H. apply H. now apply minimo_In. Qed.

(** The element that contrast stores for the element [x] of a channel of
    mean [m], with factor [f]. *)
#[local] Abbreviation contraste_de m f x :=
  (valor (astype_uint8 cast_indefinido
            (np_clip 0 255
               (fadd (fmul (fsub (astype_float32 x) (Fin m)) (Fin f)) (Fin m))))).

Lemma contraste_creciente (m f : Q) (y z : Z) :
  (0 <= y <= 255)%Z -> (0 <= z <= 255)%Z -> 0 <= f -> (y <= z)%Z ->
  (contraste_de m f (of_Z y) <= contraste_de m f (of_Z z))%Z.
Proof.
  intros Hy Hz Hf Hyz.
  destruct (contraste_valor y m f Hy) as (v & -> & Ev).
  destruct (contraste_valor z m f Hz) as (w & -> & Ew).
  apply clip_astype_mono. rewrite Ev, Ew.
  assert (H : inject_Z y <= inject_Z z) by (rewrite <- Zle_Qle; exact Hyz).
  assert (P : 0 <= (inject_Z z - inject_Z y) * f) by (apply Qmult_le_0_compat; lra).
  lra.
Qed.



(** The least and the greatest element of a channel of integers of
    [0, 255] are elements of the channel, integers of [0, 255]. *)
Lemma extremos_uint8 (l : list pyfloat) :
  l <> [] ->
  (forall x, In x l -> exists z, x = of_Z z /\ (0 <= z <= 255)%Z) ->
  (0 <= minimo (map valor l) <= 255)%Z /\ (0 <= maximo (map valor l) <= 255)%Z /\
  (minimo (map valor l) <= maximo (map valor l))%Z /\
  In (of_Z (minimo (map valor l))) l /\ In (of_Z (maximo (map valor l))) l.
Proof.
  intros Hl Hv.
  assert (Hz : map valor l <> []) by (destruct l; [congruence | discriminate]).
  pose proof (minimo_In _ Hz) as Hmin. pose proof (maximo_In _ Hz) as Hmax.
  assert (Hle : (minimo (map valor l) <= maximo (map valor l))%Z)
    by (now apply minimo_cota).
  apply in_map_iff in Hmin as (x & Ex & Hx). apply in_map_iff in Hmax as (y & Ey & Hy).
  destruct (Hv x Hx) as (a & Ea & Ha). destruct (Hv y Hy) as (b & Eb & Hb).
  rewrite Ea, valor_of_Z in Ex. rewrite Eb, valor_of_Z in Ey. subst a b.
  rewrite <- Ea, <- Eb. repeat split; try lia; assumption.
Qed.

(** With a factor that is not negative, the greatest and the least element
    of the result come from the greatest and the least element of the
    channel. *)
Lemma contraste_extremos (l : list pyfloat) (m f : Q) :
  l <> [] -> 0 <= f ->
  (forall x, In x l -> exists z, x = of_Z z /\ (0 <= z <= 255)%Z) ->
  maximo (map (fun x => contraste_de m f x) l)
    = contraste_de m f (of_Z (maximo (map valor l))) /\
  minimo (map (fun x => contraste_de m f x) l)
    = contraste_de m f (of_Z (minimo (map valor l))).
Proof.
  intros Hl Hf Hv.
  assert (Hz : map valor l <> []) by (destruct l; [congruence | discriminate]).
  assert (Hg : map (fun x => contraste_de m f x) l <> [])
    by (destruct l; [congruence | discriminate]).
  destruct (extremos_uint8 l Hl Hv) as (Bmin & Bmax & _ & _ & _).
  split.
  - apply Z.le_antisymm.
    + apply maximo_le; [exact Hg |]. intros k Hk.
      apply in_map_iff in Hk as (x & <- & Hx). destruct (Hv x Hx) as (z & -> & Hz').
      apply contraste_creciente; [exact Hz' | exact Bmax | exact Hf |].
      apply maximo_cota. apply in_map_iff. exists (of_Z z).
      split; [apply valor_of_Z | exact Hx].
    + pose proof (maximo_In _ Hz) as Hin. apply in_map_iff in Hin as (x & Ex & Hx).
      destruct (Hv x Hx) as (z & -> & _). rewrite valor_of_Z in Ex. rewrite <- Ex.
      apply maximo_cota. apply in_map_iff. now exists (of_Z z).
  - apply Z.le_antisymm.
    + pose proof (minimo_In _ Hz) as Hin. apply in_map_iff in Hin as (x & Ex & Hx).
      destruct (Hv x Hx) as (z & -> & _). rewrite valor_of_Z in Ex. rewrite <- Ex.
      apply minimo_cota. apply in_map_iff. now exists (of_Z z).
    + apply minimo_ge; [exact Hg |]. intros k Hk.
      apply in_map_iff in Hk as (x & <- & Hx). destruct (Hv x Hx) as (z & -> & Hz').
      apply contraste_creciente; [exact Bmin | exact Hz' | exact Hf |].
      apply minimo_cota. apply in_map_iff. exists (of_Z z).
      split; [apply valor_of_Z | exact Hx].
Qed.



(** *** The scenario of the specification *)

(** C1: the 100 x 100 x 3 float array filled with 0.5 is labelled "HSV" by
    the float HSV rule, not "BGR/RGB", and converting it to HSV raises, the
    pair (HSV, HSV) being absent from the table. *)
Theorem imagen_05_es_hsv :
  clasifica (Some imagen_05) =
    Ok (mk_info "HSV" (Some "float64") (Some [100; 100; 3]%nat)
          (Some [("C0", (Fin (1 # 2), Fin (1 # 2)));
                 ("C1", (Fin (1 # 2), Fin (1 # 2)));
                 ("C2", (Fin (1 # 2), Fin (1 # 2)))]) []) /\
  convierte (Some imagen_05) "HSV" =
    Raise (ValueError "Conversión no soportada: HSV -> HSV").
Proof.
  split; vm_compute; reflexivity.
Qed.

(** *** Further properties of [_ensure_u8_3c] *)

Lemma is_uint8_val_of_Z (z : Z) : (0 <= z <= 255)%Z -> is_uint8_val (of_Z z) = true.
Proof.
  intros H. unfold is_uint8_val, of_Z, inject_Z. cbn [Qnum Qden].
  rewrite Pos.eqb_refl. cbn [andb].
  apply andb_true_intro. split; apply Z.leb_le; lia.
Qed.

Lemma trunc_rango (q : Q) : -1 < q -> q < 256 -> (0 <= trunc q <= 255)%Z.
Proof.
  intros H0 H1. destruct (Qlt_le_dec q 0) as [Hn | Hp].
  - destruct q as [n d]. unfold trunc, Qlt in *. cbn [Qnum Qden] in *.
    assert (E : (n ÷ Z.pos d = 0)%Z).
    { rewrite <- (Z.opp_involutive n), Z.quot_opp_l by discriminate.
      rewrite Z.quot_small; lia. }
    rewrite E. lia.
  - rewrite trunc_floor by exact Hp. split.
    + rewrite <- (Qfloor_Z 0). now apply Qfloor_resp_le.
    + assert (H : inject_Z (Qfloor q) < inject_Z 256).
      { apply Qle_lt_trans with q; [apply Qfloor_le | exact H1]. }
      rewrite <- Zlt_Qlt in H. lia.
Qed.

(** Whatever the element, [astype(np.uint8)] stores an integer of [0, 255]. *)
Lemma astype_uint8_val (x : pyfloat) :
  is_uint8_val (astype_uint8 cast_indefinido x) = true.
Proof.
  assert (M : forall y, is_uint8_val (of_Z (cast_indefinido y mod 256)) = true).
  { intros y. apply is_uint8_val_of_Z.
    pose proof (Z.mod_pos_bound (cast_indefinido y) 256). lia. }
  destruct x as [| | q |]; cbn [astype_uint8]; try apply M.
  destruct (negb (Qle_bool q (-1 # 1)) && negb (Qle_bool 256 q)) eqn:E; [| apply M].
  apply andb_prop in E as [E0 E1]. apply negb_true_iff in E0, E1.
  apply Qle_bool_false in E0, E1.
  apply is_uint8_val_of_Z. now apply trunc_rango.
Qed.

Lemma forallb_map_astype (f : pyfloat -> pyfloat) (l : list pyfloat) :
  forallb is_uint8_val (map (fun x => astype_uint8 cast_indefinido (f x)) l) = true.
Proof.
  apply forallb_forall. intros y Hy. apply in_map_iff in Hy as (x & <- & _).
  apply astype_uint8_val.
Qed.

(** X1: what [_ensure_u8_3c] answers on a well-formed array is a well-formed
    [uint8] array of the same shape, its elements integers of [0, 255]. *)
Theorem ensure_u8_3c_salida (img out : ndarray) :
  well_formed img = true ->
  normaliza img = Ok out ->
  es_uint8 out = true /\ shape out = shape img /\
  tres_canales out = true /\ well_formed out = true.
Proof.
  intros Hw H. unfold _ensure_u8_3c in H.
  destruct (negb (ndim img =? 3)%nat || negb (shape_at img 2 =? 3)%nat) eqn:Et;
    [discriminate |].
  assert (Ht : tres_canales img = true).
  { unfold tres_canales. apply orb_false_elim in Et as [E1 E2].
    apply negb_false_iff in E1, E2. now rewrite E1, E2. }
  unfold well_formed in Hw. apply andb_prop in Hw as [Hl Hv].
  destruct (dtype_eqb (dtype img) uint8) eqn:Ed.
  - injection H as <-.
    assert (Hd : dtype img = uint8) by (destruct (dtype img); try discriminate; reflexivity).
    rewrite Hd in Hv. unfold es_uint8, valores_uint8, well_formed.
    rewrite Hd, Hl, Hv. repeat split; assumption.
  - destruct (np_nanmax (data img)) as [mx | e]; cbn [bind] in H; [| discriminate].
    assert (G : forall f,
               let o := mk_ndarray uint8 (shape img)
                          (map (fun x => astype_uint8 cast_indefinido (f x)) (data img)) in
               es_uint8 o = true /\ shape o = shape img /\
               tres_canales o = true /\ well_formed o = true).
    { intros f o. unfold es_uint8, valores_uint8, well_formed, tres_canales, ndim, shape_at.
      subst o. cbn [dtype shape data dtype_eqb andb].
      rewrite forallb_map_astype, length_map, Hl.
      unfold tres_canales, ndim, shape_at in Ht. rewrite Ht. repeat split. }
    destruct (fle mx umbral_unidad); injection H as <-.
    + apply (G (fun x => np_round (por_255 (dtype img) (np_clip 0 1 x)))).
    + apply (G (fun x => np_round (np_clip 0 255 x))).
Qed.

(** X2: [_ensure_u8_3c] is idempotent: applied to what it answered, it
    answers the same array. *)
Theorem ensure_u8_3c_idempotente (img out : ndarray) :
  normaliza img = Ok out -> normaliza out = Ok out.
Proof.
  intros H. unfold _ensure_u8_3c in H.
  destruct (negb (ndim img =? 3)%nat || negb (shape_at img 2 =? 3)%nat) eqn:Et;
    [discriminate |].
  assert (G : forall o, dtype o = uint8 -> shape o = shape img -> normaliza o = Ok o).
  { intros o Hd Hs. unfold _ensure_u8_3c, ndim, shape_at. rewrite Hs.
    unfold ndim, shape_at in Et. rewrite Et, Hd. reflexivity. }
  destruct (dtype_eqb (dtype img) uint8) eqn:Ed.
  - injection H as <-. apply G; [| reflexivity].
    destruct (dtype img); try discriminate; reflexivity.
  - destruct (np_nanmax (data img)) as [mx | e]; cbn [bind] in H; [| discriminate].
    destruct (fle mx umbral_unidad); injection H as <-; apply G; reflexivity.
Qed.

Lemma Forall2_map_in {A B : Type} (R : A -> B -> Prop) (f : A -> B) (l : list A) :
  (forall x, In x l -> R x (f x)) -> Forall2 R l (map f l).
Proof.
  induction l as [| x r IH]; intros H; cbn [map]; constructor.
  - apply H. now left.
  - apply IH. intros y Hy. apply H. now right.
Qed.

Lemma en_unidad_inv (x : pyfloat) :
  en_unidad x = true -> exists q, x = Fin q /\ 0 <= q /\ q <= 1.
Proof.
  destruct x as [| | q |]; cbn [en_unidad]; intros H; try discriminate.
  apply andb_prop in H as [H0 H1]. apply Qle_bool_iff in H0, H1. now exists q.
Qed.

Lemma no_nan_finitos (l : list pyfloat) :
  (forall x, In x l -> is_nan x = false) -> no_nan l = l.
Proof.
  unfold no_nan. induction l as [| x r IH]; intros H; [reflexivity |].
  cbn [filter]. rewrite (H x (or_introl eq_refl)). cbn [negb].
  f_equal. apply IH. intros y Hy. apply H. now right.
Qed.

(** On a list without NaN [np.nanmax] answers a greatest element. *)
Lemma np_nanmax_maximo (l : list pyfloat) (m : pyfloat) :
  np_nanmax l = Ok m -> (forall x, In x l -> is_nan x = false) -> es_maximo m l.
Proof.
  intros H Hn. assert (Hl : l <> []) by (intros ->; discriminate).
  destruct (np_nanmax_spec l Hl) as (m' & Hm' & Hs).
  rewrite H in Hm'. injection Hm' as <-.
  unfold es_nanmax in Hs. rewrite (no_nan_finitos l Hn) in Hs. destruct Hs as [[C _] | [_ Hs]]; [congruence | exact Hs].
Qed.

(** X3: a float image with values in [0, 1] is quantised to the nearest
    multiple of 1/255: every stored integer [k] of [0, 255] is within 1/255
    of the value it comes from, once divided by 255. *)
Theorem ensure_u8_3c_cuantiza (img : ndarray) :
  tres_canales img = true -> dtype img <> uint8 -> data img <> [] ->
  forallb en_unidad (data img) = true ->
  exists out,
    normaliza img = Ok out /\ shape out = shape img /\
    Forall2 (fun x y =>
               exists k, y = of_Z k /\ (0 <= k <= 255)%Z /\
                         Qabs (inject_Z k / 255 - racional x) <= 1 # 255)
            (data img) (data out).
Proof.
  intros Ht Hd Hne Hu. rewrite forallb_forall in Hu.
  assert (Hn : forall x, In x (data img) -> is_nan x = false).
  { intros x Hx. destruct (en_unidad_inv x (Hu x Hx)) as (q & -> & _). reflexivity. }
  unfold _ensure_u8_3c. destruct (tres_canales_ramas img Ht) as [_ ->].
  assert (Ed : dtype_eqb (dtype img) uint8 = false)
    by (destruct (dtype img); try reflexivity; congruence).
  rewrite Ed. destruct (np_nanmax_spec _ Hne) as (mx & Hmx & _).
  destruct (np_nanmax_maximo _ _ Hmx Hn) as [Hin _].
  rewrite Hmx. cbn [bind].
  assert (Hle : fle mx umbral_unidad = true).
  { destruct (en_unidad_inv mx (Hu mx Hin)) as (q & -> & _ & H1).
    apply (fle_trans _ (Fin 1)); [now apply Qle_bool_iff | reflexivity]. }
  rewrite Hle. eexists. split; [reflexivity |]. split; [reflexivity |].
  cbn [data escala_unidad]. apply Forall2_map_in. intros x Hx.
  destruct (en_unidad_inv x (Hu x Hx)) as (q & -> & H0 & H1).
  cbn [np_clip racional]. rewrite (Qclip_dentro 0 1 q H0 H1).
  destruct (por_255_cerca (dtype img) q H0 H1) as (v & -> & Ev).
  apply Qabs_Qle_condition in Ev. cbn [np_round].
  assert (Hk : (0 <= round_half_even v <= 255)%Z).
  { split.
    - replace 0%Z with (round_half_even (-1 # 131072)) by reflexivity.
      apply round_half_even_mono. lra.
    - replace 255%Z with (round_half_even (33423361 # 131072)) by reflexivity.
      apply round_half_even_mono. lra. }
  exists (round_half_even v). split; [| split; [exact Hk |]].
  - apply astype_uint8_int; [reflexivity | exact Hk].
  - pose proof (round_half_even_error v) as He.
    apply Qabs_Qle_condition. clear Hk.
    generalize dependent (inject_Z (round_half_even v)). intros k He.
    unfold Qdiv. change (/ 255) with (1 # 255). lra.
Qed.

Lemma valores_sin_nan (l : list pyfloat) :
  forallb is_uint8_val l = true -> forall x, In x l -> is_nan x = false.
Proof.
  intros H x Hx. rewrite forallb_forall in H.
  destruct (is_uint8_val_inv x (H x Hx)) as (z & -> & _). reflexivity.
Qed.

(** X4: on a float image that holds integers of [0, 255], [_ensure_u8_3c]
    keeps every element when one of them is at least 2, and multiplies every
    element by 255 when all of them are 0 or 1. *)
Theorem ensure_u8_3c_enteros (img : ndarray) :
  tres_canales img = true -> dtype img <> uint8 -> valores_uint8 img = true ->
  ((exists x, In x (data img) /\ (2 <= valor x)%Z) ->
   normaliza img = Ok (como_uint8 img)) /\
  (data img <> [] -> (forall x, In x (data img) -> (valor x <= 1)%Z) ->
   normaliza img =
     Ok (mk_ndarray uint8 (shape img) (map (fun x => of_Z (255 * valor x)) (data img)))).
Proof.
  intros Ht Hd Hv. pose proof (valores_uint8_inv img Hv) as Hu.
  pose proof (valores_sin_nan _ Hv) as Hn.
  assert (Ed : dtype_eqb (dtype img) uint8 = false)
    by (destruct (dtype img); try reflexivity; congruence).
  unfold _ensure_u8_3c. destruct (tres_canales_ramas img Ht) as [_ ->]. rewrite Ed.
  split.
  - intros (x & Hx & Hx2).
    assert (Hne : data img <> []) by (intros C; rewrite C in Hx; exact Hx).
    destruct (np_nanmax_spec _ Hne) as (mx & Hmx & _).
    destruct (np_nanmax_maximo _ _ Hmx Hn) as [_ Hmax].
    rewrite Hmx. cbn [bind].
    assert (Hle : fle mx umbral_unidad = false).
    { destruct (fle mx umbral_unidad) eqn:E; [| reflexivity]. exfalso.
      pose proof (fle_trans _ _ _ (Hmax x Hx) E) as C.
      destruct (Hu x Hx) as (z & -> & _). rewrite valor_of_Z in Hx2.
      cbn in C. apply Qle_bool_iff in C. unfold Qle in C. cbn in C. lia. }
    rewrite Hle. unfold escala_255, como_uint8. do 2 f_equal.
    apply map_id_in. intros y Hy. destruct (Hu y Hy) as (z & -> & Hz).
    cbn [np_clip of_Z]. rewrite Qclip_dentro.
    + cbn [np_round]. rewrite (round_half_even_int _ z (Qeq_refl _)).
      now apply astype_uint8_int.
    + change 0 with (inject_Z 0). rewrite <- Zle_Qle. lia.
    + change 255 with (inject_Z 255). rewrite <- Zle_Qle. lia.
  - intros Hne Hb.
    destruct (np_nanmax_spec _ Hne) as (mx & Hmx & _).
    destruct (np_nanmax_maximo _ _ Hmx Hn) as [Hin _].
    rewrite Hmx. cbn [bind].
    assert (Hle : fle mx umbral_unidad = true).
    { specialize (Hb mx Hin). destruct (Hu mx Hin) as (z & -> & _).
      rewrite valor_of_Z in Hb.
      apply (fle_trans _ (Fin 1)); [| reflexivity].
      apply Qle_bool_iff. change 1 with (inject_Z 1). rewrite <- Zle_Qle. exact Hb. }
    rewrite Hle. unfold escala_unidad. do 2 f_equal.
    apply map_ext_in. intros y Hy. specialize (Hb y Hy).
    destruct (Hu y Hy) as (z & -> & Hz). rewrite valor_of_Z in *.
    cbn [np_clip of_Z]. rewrite Qclip_dentro.
    + assert (Ez : z = 0%Z \/ z = 1%Z) by lia.
      destruct Ez as [-> | ->]; destruct (dtype img); try congruence; reflexivity.
    + change 0 with (inject_Z 0). rewrite <- Zle_Qle. lia.
    + change 1 with (inject_Z 1). rewrite <- Zle_Qle. lia.
Qed.

(** *** Further properties of [espacio_color] *)

(** The classifier on an image with three channels and at least one
    pixel, once the six reductions are known to answer. *)
Lemma espacio_color_tres (img : ndarray) :
  well_formed img = true -> tres_canales img = true -> data img <> [] ->
  exists n0 n1 n2 x0 x1 x2,
    np_min (canal 0 (data img)) = Ok n0 /\ np_min (canal 1 (data img)) = Ok n1 /\
    np_min (canal 2 (data img)) = Ok n2 /\
    np_max (canal 0 (data img)) = Ok x0 /\ np_max (canal 1 (data img)) = Ok x1 /\
    np_max (canal 2 (data img)) = Ok x2 /\
    clasifica (Some img) =
      let info :=
        set_rangos [("C0", (py_round n0 2, py_round x0 2));
                    ("C1", (py_round n1 2, py_round x1 2));
                    ("C2", (py_round n2 2, py_round x2 2))]
          (mk_info "Desconocido" (Some (dtype_str (dtype img))) (Some (shape img)) None []) in
      if dtype_eqb (dtype img) uint8 && fle x0 (of_Z 180) && fle x1 (of_Z 255)
         && fle x2 (of_Z 255)
      then Ok (set_espacio "HSV" info)
      else if is_floating (dtype img)
              && (fle x0 (of_Z 360) && fle x1 umbral_sv && fle x2 umbral_sv)
      then Ok (set_espacio "HSV" info)
      else
        match ciclos_lab_ycrcb cvtColor mse_broadcast cast_indefinido img with
        | Ok (mse_y, mse_l) =>
            let info :=
              set_ciclos [("YCrCb_mse", py_round mse_y 3); ("Lab_mse", py_round mse_l 3)]
                         info in
            if flt mse_y (Fin (1 # 2)) || flt mse_l (Fin (1 # 2))
            then Ok (set_espacio "Lab/YCrCb" info)
            else Ok (bgr_por_defecto (dtype img) [x0; x1; x2] info)
        | Raise _ => Ok (bgr_por_defecto (dtype img) [x0; x1; x2] info)
        end.
Proof.
  intros Hw Ht Hd. pose proof (tres_canales_datos img Hw Ht Hd) as Hl.
  destruct (np_min_ok _ (canal_no_vacio 0 _ Hl)) as [n0 E0].
  destruct (np_min_ok _ (canal_no_vacio 1 _ Hl)) as [n1 E1].
  destruct (np_min_ok _ (canal_no_vacio 2 _ Hl)) as [n2 E2].
  destruct (np_max_ok _ (canal_no_vacio 0 _ Hl)) as [x0 F0].
  destruct (np_max_ok _ (canal_no_vacio 1 _ Hl)) as [x1 F1].
  destruct (np_max_ok _ (canal_no_vacio 2 _ Hl)) as [x2 F2].
  exists n0, n1, n2, x0, x1, x2. repeat (split; [assumption |]).
  unfold espacio_color. destruct (tres_canales_ramas img Ht) as [-> ->].
  rewrite E0, E1, E2, F0, F1, F2. reflexivity.
Qed.

(** [np.max] against a bound: within it exactly when every element is. *)
Lemma np_max_cota (l : list pyfloat) (m b : pyfloat) :
  np_max l = Ok m ->
  (fle m b = true <-> forall x, In x l -> fle x b = true).
Proof.
  intros H. split.
  - intros Hm x Hx.
    destruct (sin_nan l) eqn:Es.
    + destruct (np_max_maximo l m H Es) as [_ Hle].
      eapply fle_trans; [apply Hle; exact Hx | exact Hm].
    + destruct l as [| y r]; [discriminate |]. cbn in H. injection H as <-.
      rewrite (fold_fmax2_nan r y Es) in Hm. discriminate.
  - intros Hb.
    assert (Es : sin_nan l = true).
    { apply sin_nan_forall. intros x Hx. specialize (Hb x Hx).
      destruct x; try discriminate; reflexivity. }
    destruct (np_max_maximo l m H Es) as [Hin _]. now apply Hb.
Qed.

Lemma uint8_hasta_255 (img : ndarray) (k : nat) (m : pyfloat) :
  well_formed img = true -> dtype img = uint8 -> (k < 3)%nat ->
  np_max (canal k (data img)) = Ok m -> fle m (of_Z 255) = true.
Proof.
  intros Hw Hd Hk H. apply (np_max_cota _ _ _ H). intros x Hx.
  apply canal_In in Hx; [| exact Hk].
  unfold well_formed in Hw. rewrite Hd in Hw. apply andb_prop in Hw as [_ Hv].
  rewrite forallb_forall in Hv.
  destruct (is_uint8_val_inv x (Hv x Hx)) as (z & -> & Hz).
  apply Qle_bool_iff. rewrite <- Zle_Qle. lia.
Qed.

(** X5: a well-formed [uint8] image with three channels and at least one
    pixel is never left "Desconocido": it is labelled "HSV" exactly when
    every value of channel 0 is within 180, without any call to OpenCV, and
    "Lab/YCrCb" or "BGR/RGB" otherwise. *)
Theorem espacio_color_uint8 (img : ndarray) :
  well_formed img = true -> dtype img = uint8 ->
  tres_canales img = true -> data img <> [] ->
  exists i,
    clasifica (Some img) = Ok i /\
    (espacio i = "HSV" \/ espacio i = "Lab/YCrCb" \/ espacio i = "BGR/RGB") /\
    (espacio i = "HSV" <->
     forall x, In x (canal 0 (data img)) -> fle x (of_Z 180) = true) /\
    (espacio i = "HSV" -> ciclos i = []).
Proof.
  intros Hw Hd Ht Hne.
  destruct (espacio_color_tres img Hw Ht Hne)
    as (n0 & n1 & n2 & x0 & x1 & x2 & _ & _ & _ & F0 & F1 & F2 & ->).
  assert (H0 : fle x0 (of_Z 255) = true) by (apply (uint8_hasta_255 img 0%nat); auto; lia).
  assert (H1 : fle x1 (of_Z 255) = true) by (apply (uint8_hasta_255 img 1%nat); auto; lia).
  assert (H2 : fle x2 (of_Z 255) = true) by (apply (uint8_hasta_255 img 2%nat); auto; lia).
  rewrite H1, H2.
  pose proof (np_max_cota _ x0 (of_Z 180) F0) as Hc.
  rewrite Hd. cbn [dtype_eqb is_floating andb].
  rewrite !andb_true_r.
  destruct (fle x0 (of_Z 180)) eqn:E180.
  - eexists. split; [reflexivity |]. cbn [espacio set_espacio ciclos set_rangos].
    split; [now left |]. split; [| reflexivity].
    split; [intros _; now apply Hc | reflexivity].
  - assert (Hno : ~ (forall x, In x (canal 0 (data img)) -> fle x (of_Z 180) = true)).
    { intros C. apply Hc in C. discriminate. }
    assert (Hb : forall i, espacio i = "Desconocido" ->
                 espacio (bgr_por_defecto uint8 [x0; x1; x2] i) = "BGR/RGB").
    { intros i _. unfold bgr_por_defecto. cbn [dtype_eqb andb forallb].
      rewrite H0, H1, H2. reflexivity. }
    cbv zeta.
    destruct (ciclos_lab_ycrcb _ _ _ img) as [[my ml] | e];
      [destruct (flt my (Fin (1 # 2)) || flt ml (Fin (1 # 2))) |];
      eexists; (split; [reflexivity |]);
      try rewrite Hb by reflexivity; cbn [espacio set_espacio];
      (split; [auto |]); (split; [split; [discriminate | intros C; contradiction] |]);
      discriminate.
Qed.

(** X6: a well-formed float image with three channels and at least one
    pixel whose channel 0 is within 360 and whose channels 1 and 2 are
    within 1.1 is labelled "HSV" without any call to OpenCV.  So is every
    float image with values in [0, 1], which cannot then be converted to
    HSV. *)
Theorem espacio_color_hsv_flotante (img : ndarray) :
  well_formed img = true -> is_floating (dtype img) = true ->
  tres_canales img = true -> data img <> [] ->
  ((forall x, In x (canal 0 (data img)) -> fle x (of_Z 360) = true) ->
   (forall x, In x (canal 1 (data img)) -> fle x umbral_sv = true) ->
   (forall x, In x (canal 2 (data img)) -> fle x umbral_sv = true) ->
   exists i, clasifica (Some img) = Ok i /\ espacio i = "HSV" /\ ciclos i = []) /\
  (forallb en_unidad (data img) = true ->
   (exists i, clasifica (Some img) = Ok i /\ espacio i = "HSV" /\ ciclos i = []) /\
   convierte (Some img) "HSV" = Raise (ValueError "Conversión no soportada: HSV -> HSV")).
Proof.
  intros Hw Hf Ht Hne.
  assert (G : (forall x, In x (canal 0 (data img)) -> fle x (of_Z 360) = true) ->
              (forall x, In x (canal 1 (data img)) -> fle x umbral_sv = true) ->
              (forall x, In x (canal 2 (data img)) -> fle x umbral_sv = true) ->
              exists i, clasifica (Some img) = Ok i /\ espacio i = "HSV" /\ ciclos i = []).
  { intros H0 H1 H2.
    destruct (espacio_color_tres img Hw Ht Hne)
      as (n0 & n1 & n2 & x0 & x1 & x2 & _ & _ & _ & F0 & F1 & F2 & ->).
    apply (np_max_cota _ _ _ F0) in H0. apply (np_max_cota _ _ _ F1) in H1.
    apply (np_max_cota _ _ _ F2) in H2.
    assert (Ed : dtype_eqb (dtype img) uint8 = false)
      by (destruct (dtype img); try reflexivity; discriminate).
    rewrite Ed, Hf, H0, H1, H2. cbn [andb]. eexists. split; [reflexivity |]. split; reflexivity. }
  split; [exact G |]. intros Hu. rewrite forallb_forall in Hu.
  assert (Hb : forall k b, (k < 3)%nat -> fle (Fin 1) b = true ->
               forall x, In x (canal k (data img)) -> fle x b = true).
  { intros k b Hk Hb x Hx. apply canal_In in Hx; [| exact Hk].
    destruct (en_unidad_inv x (Hu x Hx)) as (q & -> & _ & H1).
    apply (fle_trans _ (Fin 1)); [now apply Qle_bool_iff | exact Hb]. }
  destruct G as (i & Hi & Hl & Hc).
  - apply (Hb 0%nat); [lia | reflexivity].
  - apply (Hb 1%nat); [lia | reflexivity].
  - apply (Hb 2%nat); [lia | reflexivity].
  - split; [now exists i |].
    unfold convertir_espacio_color. rewrite Hi. cbn [bind]. rewrite Hl. reflexivity.
Qed.

(** X7: what a classification records of the array: always its dtype and
    its shape; the single range "Canal" and the label "GRAY" when it is
    two-dimensional, the three ranges "C0", "C1", "C2" when it has three
    channels, and otherwise no range, the label "Desconocido" and no cycle
    error. *)
Theorem espacio_color_campos (img : ndarray) (i : info) :
  clasifica (Some img) = Ok i ->
  info_dtype i = Some (dtype_str (dtype img)) /\
  info_shape i = Some (shape img) /\
  (ndim img = 2%nat ->
   exists r, rangos i = Some [("Canal", r)] /\ espacio i = "GRAY" /\ ciclos i = []) /\
  (tres_canales img = true ->
   exists r0 r1 r2, rangos i = Some [("C0", r0); ("C1", r1); ("C2", r2)]) /\
  (ndim img <> 2%nat -> tres_canales img = false ->
   rangos i = None /\ espacio i = "Desconocido" /\ ciclos i = []).
Proof.
  intros H.
  assert (Hex : forall a, (ndim a =? 2)%nat = true -> tres_canales a = true -> False).
  { intros a E2 Et. unfold tres_canales in Et. apply andb_prop in Et as [E3 _].
    apply Nat.eqb_eq in E2, E3. lia. }
  assert (Htr : forall a,
             negb (ndim a =? 3)%nat || negb (shape_at a 2 =? 3)%nat = negb (tres_canales a)).
  { intros a. unfold tres_canales. now rewrite negb_andb. }
  ramas H img;
    try (rewrite Htr in Etres; destruct (tres_canales img) eqn:ET;
         cbn [negb] in Etres; try discriminate Etres);
    repeat match goal with
           | |- context [bgr_por_defecto ?d ?c ?j] =>
               let P := fresh in
               pose proof (bgr_por_defecto_campos d c j) as P;
               destruct P as (-> & _ & -> & -> & _)
           end;
    cbn [info_dtype info_shape rangos espacio ciclos set_espacio set_rangos set_ciclos];
    (split; [reflexivity |]); (split; [reflexivity |]);
    (split; [intros E2; try (apply Nat.eqb_neq in Egris; contradiction);
             eexists; repeat split; reflexivity |]);
    (split; [intros Et; try (exfalso; now apply (Hex img));
             try congruence; do 3 eexists; reflexivity |]);
    intros N2 Nt; try (apply Nat.eqb_eq in Egris; contradiction); try congruence;
    repeat split; reflexivity.
Qed.

Lemma flt_fle (x y : pyfloat) : flt x y = true -> fle x y = true.
Proof.
  destruct x, y; cbn; intros H; try discriminate; try reflexivity.
  apply negb_true_iff, Qle_bool_false in H. apply Qle_bool_iff. now apply Qlt_le_weak.
Qed.

Lemma umbral_redondeado (m : pyfloat) :
  flt m (Fin (1 # 2)) = true -> fle (py_round m 3) (Fin (1 # 2)) = true.
Proof.
  intros H. apply flt_fle in H.
  apply (py_round_mono _ _ 3) in H.
  replace (py_round (Fin (1 # 2)) 3) with (Fin (1 # 2)) in H by (vm_compute; reflexivity).
  exact H.
Qed.

(** X8: the cycle errors of a classification are either absent or exactly
    the two entries "YCrCb_mse" and "Lab_mse"; they are absent under the
    labels "GRAY" and "HSV"; and under the label "Lab/YCrCb" they are
    present, one of the two recorded errors being at most 0.5. *)
Theorem espacio_color_ciclos (img : option ndarray) (i : info) :
  clasifica img = Ok i ->
  (ciclos i = [] \/ exists ey el, ciclos i = [("YCrCb_mse", ey); ("Lab_mse", el)]) /\
  (espacio i = "GRAY" \/ espacio i = "HSV" -> ciclos i = []) /\
  (espacio i = "Lab/YCrCb" ->
   exists ey el,
     ciclos i = [("YCrCb_mse", ey); ("Lab_mse", el)] /\
     (fle ey (Fin (1 # 2)) = true \/ fle el (Fin (1 # 2)) = true)).
Proof.
  intros H. destruct img as [img |].
  2:{ unfold espacio_color in H. injection H as <-. cbn.
      split; [now left |]. split; [reflexivity | discriminate]. }
  ramas H img;
    repeat match goal with
           | |- context [bgr_por_defecto ?d ?c ?j] =>
               let P := fresh in
               pose proof (bgr_por_defecto_campos d c j) as P;
               destruct P as (_ & -> & _ & _ & [-> | ->])
           end;
    cbn [espacio ciclos set_espacio set_rangos set_ciclos];
    (split; [first [now left | right; do 2 eexists; reflexivity] |]);
    (split; [intros [C | C]; first [reflexivity | discriminate C] |]);
    intros C; try discriminate C.
  do 2 eexists. split; [reflexivity |].
  apply orb_prop in Eumbral as [E | E]; [left | right]; now apply umbral_redondeado.
Qed.

(** *** Further properties of [convertir_espacio_color] *)

Lemma espacio_color_etiqueta (img : option ndarray) (i : info) :
  clasifica img = Ok i -> In (espacio i) etiquetas.
Proof.
  intros H. destruct img as [img |].
  - ramas H img; try apply bgr_por_defecto_etiqueta; cbn; tauto.
  - unfold espacio_color in H. injection H as <-. cbn. tauto.
Qed.

Lemma convertir_con_etiqueta (img : option ndarray) (i : info) (destino : string) :
  clasifica img = Ok i ->
  convierte img destino =
    match dict_get (espacio i, destino) conversiones with
    | Some code =>
        match img with
        | Some a => cvtColor a code
        | None => Raise (cv2_error "src is not a numpy array")
        end
    | None => Raise (no_soportada (espacio i) destino)
    end.
Proof. intros H. unfold convertir_espacio_color. now rewrite H. Qed.

(** X9: no image can be converted to the space it is found in: asking for
    the label that [espacio_color] answers always raises the [ValueError]. *)
Theorem convertir_mismo_espacio (img : option ndarray) (i : info) :
  clasifica img = Ok i ->
  convierte img (espacio i) =
    Raise (ValueError ("Conversión no soportada: " ++ espacio i ++ " -> " ++ espacio i)).
Proof.
  intros H. rewrite (convertir_con_etiqueta img i _ H).
  pose proof (espacio_color_etiqueta img i H) as Hl. cbn in Hl.
  destruct Hl as [<- | [<- | [<- | [<- | [<- | []]]]]]; reflexivity.
Qed.

(** X10: an image labelled "Lab/YCrCb" cannot be converted at all: every
    destination raises; and whatever the image and the destination, the
    entry of the table for Lab to BGR/RGB is never the one used. *)
Theorem convertir_lab_ycrcb (img : option ndarray) (i : info) :
  clasifica img = Ok i ->
  (espacio i = "Lab/YCrCb" ->
   forall destino,
     convierte img destino =
       Raise (ValueError ("Conversión no soportada: Lab/YCrCb -> " ++ destino))) /\
  (forall destino,
     dict_get (espacio i, destino) conversiones <> Some COLOR_Lab2BGR).
Proof.
  intros H. split.
  - intros Hl destino. rewrite (convertir_con_etiqueta img i _ H), Hl. reflexivity.
  - intros destino.
    pose proof (espacio_color_etiqueta img i H) as Hl. cbn in Hl.
    destruct Hl as [<- | [<- | [<- | [<- | [<- | []]]]]];
      cbn [dict_get conversiones]; unfold pair_eqb; cbn [fst snd];
      repeat match goal with
             | |- context [String.eqb ?a ?b] =>
                 let E := fresh in
                 destruct (String.eqb a b) eqn:E; try (cbv in E; discriminate E);
                 cbn [andb]
             end; discriminate.
Qed.

(** X11: a two-dimensional array with at least one element is handed to
    OpenCV with [COLOR_GRAY2BGR] when BGR/RGB is asked for, and any other
    destination raises the [ValueError]. *)
Theorem convertir_gris (img : ndarray) :
  ndim img = 2%nat -> data img <> [] ->
  convierte (Some img) "BGR/RGB" = cvtColor img COLOR_GRAY2BGR /\
  (forall destino, destino <> "BGR/RGB" ->
     convierte (Some img) destino =
       Raise (ValueError ("Conversión no soportada: GRAY -> " ++ destino))).
Proof.
  intros Hn Hd.
  destruct (np_min_ok _ Hd) as [mn Hmn], (np_max_ok _ Hd) as [mx Hmx].
  assert (H : clasifica (Some img) =
              Ok (set_rangos [("Canal", (py_round mn 2, py_round mx 2))]
                    (set_espacio "GRAY"
                       (mk_info "Desconocido" (Some (dtype_str (dtype img)))
                                (Some (shape img)) None [])))).
  { unfold espacio_color. rewrite Hn, Hmn, Hmx. reflexivity. }
  split.
  - rewrite (convertir_con_etiqueta _ _ _ H). reflexivity.
  - intros destino Hne. rewrite (convertir_con_etiqueta _ _ _ H).
    apply String.eqb_neq in Hne.
    cbn [espacio set_rangos set_espacio dict_get conversiones]. unfold pair_eqb. cbn [fst snd].
    replace (String.eqb "GRAY" "BGR/RGB") with false by reflexivity.
    replace (String.eqb "GRAY" "HSV") with false by reflexivity.
    replace (String.eqb "GRAY" "Lab") with false by reflexivity.
    replace (String.eqb "GRAY" "GRAY") with true by reflexivity.
    cbn [andb]. rewrite Hne. reflexivity.
Qed.

(** X12: an array that is neither two-dimensional nor of three channels is
    rejected by the converter for every destination, whatever it holds,
    with the label "Desconocido" in the message. *)
Theorem convertir_rechazo_estructural (img : ndarray) (destino : string) :
  ndim img <> 2%nat -> tres_canales img = false ->
  convierte (Some img) destino =
    Raise (ValueError ("Conversión no soportada: Desconocido -> " ++ destino)).
Proof.
  intros Hn Ht.
  assert (H : clasifica (Some img) =
              Ok (mk_info "Desconocido" (Some (dtype_str (dtype img)))
                          (Some (shape img)) None [])).
  { unfold espacio_color. apply Nat.eqb_neq in Hn. rewrite Hn.
    unfold tres_canales in Ht. rewrite <- negb_andb, Ht. reflexivity. }
  rewrite (convertir_con_etiqueta _ _ _ H). reflexivity.
Qed.

(** X13: how the converter routes a classified image: under the label
    "BGR/RGB" the destinations HSV, Lab and GRAY go to OpenCV with their
    codes and any other raises; under the label "HSV" only BGR/RGB goes to
    OpenCV. *)
Theorem convertir_rutas (img : ndarray) (i : info) :
  clasifica (Some img) = Ok i ->
  (espacio i = "BGR/RGB" ->
   convierte (Some img) "HSV" = cvtColor img COLOR_BGR2HSV /\
   convierte (Some img) "Lab" = cvtColor img COLOR_BGR2Lab /\
   convierte (Some img) "GRAY" = cvtColor img COLOR_BGR2GRAY /\
   (forall destino,
      destino <> "HSV" -> destino <> "Lab" -> destino <> "GRAY" ->
      convierte (Some img) destino =
        Raise (ValueError ("Conversión no soportada: BGR/RGB -> " ++ destino)))) /\
  (espacio i = "HSV" ->
   convierte (Some img) "BGR/RGB" = cvtColor img COLOR_HSV2BGR /\
   (forall destino,
      destino <> "BGR/RGB" ->
      convierte (Some img) destino =
        Raise (ValueError ("Conversión no soportada: HSV -> " ++ destino)))).
Proof.
  intros H. split; intros Hl.
  - repeat split; try (rewrite (convertir_con_etiqueta _ _ _ H), Hl; reflexivity).
    intros destino H1 H2 H3. rewrite (convertir_con_etiqueta _ _ _ H), Hl.
    apply String.eqb_neq in H1, H2, H3.
    cbn [dict_get conversiones]; unfold pair_eqb; cbn [fst snd].
    replace (String.eqb "BGR/RGB" "BGR/RGB") with true by reflexivity.
    replace (String.eqb "BGR/RGB" "HSV") with false by reflexivity.
    replace (String.eqb "BGR/RGB" "Lab") with false by reflexivity.
    replace (String.eqb "BGR/RGB" "GRAY") with false by reflexivity.
    cbn [andb]. rewrite H1, H2, H3. reflexivity.
  - split; [rewrite (convertir_con_etiqueta _ _ _ H), Hl; reflexivity |].
    intros destino H1. rewrite (convertir_con_etiqueta _ _ _ H), Hl.
    apply String.eqb_neq in H1.
    cbn [dict_get conversiones]; unfold pair_eqb; cbn [fst snd].
    replace (String.eqb "HSV" "BGR/RGB") with false by reflexivity.
    replace (String.eqb "HSV" "HSV") with true by reflexivity.
    replace (String.eqb "HSV" "Lab") with false by reflexivity.
    replace (String.eqb "HSV" "GRAY") with false by reflexivity.
    cbn [andb]. rewrite H1. reflexivity.
Qed.

(** *** Properties of [_mse] *)

Lemma fadd_of_Z (a b : Z) : fadd (of_Z a) (of_Z b) = of_Z (a + b).
Proof.
  unfold fadd, of_Z. f_equal. apply Qred_int. now rewrite inject_Z_plus.
Qed.

Lemma fsub_of_Z (a b : Z) : fsub (of_Z a) (of_Z b) = of_Z (a - b).
Proof.
  unfold fsub, fneg, fadd, of_Z. f_equal. apply Qred_int.
  rewrite Qred_correct. unfold Z.sub. now rewrite inject_Z_plus, inject_Z_opp.
Qed.

Lemma fmul_of_Z (a b : Z) : fmul (of_Z a) (of_Z b) = of_Z (a * b).
Proof.
  unfold fmul, of_Z. f_equal. apply Qred_int. now rewrite inject_Z_mult.
Qed.

Lemma fold_fadd_of_Z (zs : list Z) : forall a,
  fold_left fadd (map of_Z zs) (of_Z a) = of_Z (a + sumaZ zs).
Proof.
  induction zs as [| z r IH]; intros a; cbn [map fold_left sumaZ fold_right].
  - f_equal. lia.
  - rewrite fadd_of_Z, IH. fold (sumaZ r). f_equal. lia.
Qed.

Lemma np_mean_of_Z (zs : list Z) :
  zs <> [] ->
  np_mean (map of_Z zs) =
    Fin (Qred (inject_Z (sumaZ zs) / inject_Z (Z.of_nat (List.length zs)))).
Proof.
  intros H. unfold np_mean. destruct zs as [| z r]; [congruence |].
  change (map of_Z (z :: r)) with (of_Z z :: map of_Z r) at 1.
  cbv iota. rewrite fold_fadd_of_Z, length_map. reflexivity.
Qed.

Lemma cuadrados_uint8 (l1 l2 : list pyfloat) :
  (forall x, In x l1 -> exists z, x = of_Z z /\ (0 <= z <= 255)%Z) ->
  (forall x, In x l2 -> exists z, x = of_Z z /\ (0 <= z <= 255)%Z) ->
  map (fun xy => fmul (fsub (fst xy) (snd xy)) (fsub (fst xy) (snd xy)))
      (combine (map astype_float32 l1) (map astype_float32 l2))
  = map of_Z (cuadrados l1 l2).
Proof.
  intros H1 H2.
  rewrite (astype_float32_datos l1 H1), (astype_float32_datos l2 H2).
  unfold cuadrados. rewrite map_map. apply map_ext_in. intros [x y] Hxy.
  pose proof (in_combine_l _ _ _ _ Hxy) as Hx. pose proof (in_combine_r _ _ _ _ Hxy) as Hy.
  destruct (H1 x Hx) as (a & -> & _). destruct (H2 y Hy) as (b & -> & _).
  cbn [fst snd]. now rewrite fsub_of_Z, fmul_of_Z, !valor_of_Z.
Qed.

Lemma shape_eqb_refl (s : list nat) : shape_eqb s s = true.
Proof. unfold shape_eqb. destruct (list_eq_dec Nat.eq_dec s s); congruence. Qed.

(** [_mse] on two arrays of integers of [0, 255] of one shape: the exact
    sum of the squared differences over their number. *)
Lemma mse_uint8 (a b : ndarray) :
  shape a = shape b -> valores_uint8 a = true -> valores_uint8 b = true ->
  cuadrados (data a) (data b) <> [] ->
  _mse mse_broadcast a b =
    Ok (Fin (Qred (inject_Z (sumaZ (cuadrados (data a) (data b))) /
                   inject_Z (Z.of_nat (List.length (cuadrados (data a) (data b))))))).
Proof.
  intros Hs Ha Hb Hne. unfold _mse. rewrite Hs, shape_eqb_refl. cbv zeta.
  rewrite (cuadrados_uint8 _ _ (valores_uint8_inv a Ha) (valores_uint8_inv b Hb)).
  now rewrite np_mean_of_Z.
Qed.

Lemma cuadrados_no_vacio (l1 l2 : list pyfloat) :
  l1 <> [] -> List.length l1 = List.length l2 -> cuadrados l1 l2 <> [].
Proof.
  destruct l1 as [| x r], l2 as [| y s]; cbn; intros H E; try congruence; discriminate.
Qed.

Lemma sumaZ_cons (z : Z) (r : list Z) : sumaZ (z :: r) = (z + sumaZ r)%Z.
Proof. reflexivity. Qed.

Lemma sumaZ_cuadrados (l1 l2 : list pyfloat) :
  (0 <= sumaZ (cuadrados l1 l2))%Z.
Proof.
  unfold cuadrados. induction (combine l1 l2) as [| [x y] r IH].
  - cbn. lia.
  - cbn [map]. rewrite sumaZ_cons.
    pose proof (Z.square_nonneg (valor (fst (x, y)) - valor (snd (x, y)))). lia.
Qed.

Lemma sumaZ_cuadrados_cero (l1 : list pyfloat) : forall l2,
  (forall x, In x l1 -> exists z, x = of_Z z /\ (0 <= z <= 255)%Z) ->
  (forall x, In x l2 -> exists z, x = of_Z z /\ (0 <= z <= 255)%Z) ->
  List.length l1 = List.length l2 ->
  (sumaZ (cuadrados l1 l2) = 0%Z <-> l1 = l2).
Proof.
  induction l1 as [| x r IH]; intros [| y s] H1 H2 E; try discriminate.
  - cbn. tauto.
  - destruct (H1 x (or_introl eq_refl)) as (a & -> & _).
    destruct (H2 y (or_introl eq_refl)) as (b & -> & _).
    assert (IH' : sumaZ (cuadrados r s) = 0%Z <-> r = s).
    { apply IH; [intros z Hz; apply H1; now right | intros z Hz; apply H2; now right |].
      cbn in E. congruence. }
    pose proof (sumaZ_cuadrados r s) as Hp.
    change (cuadrados (of_Z a :: r) (of_Z b :: s))
      with (((valor (of_Z a) - valor (of_Z b)) * (valor (of_Z a) - valor (of_Z b)))%Z
            :: cuadrados r s).
    rewrite sumaZ_cons, !valor_of_Z.
    pose proof (Z.square_nonneg (a - b)) as Hsq.
    split.
    + intros H. assert (Hab : ((a - b) * (a - b) = 0)%Z) by lia.
      apply Z.mul_eq_0 in Hab. assert (a = b) by lia. subst b.
      f_equal. apply IH'. lia.
    + intros H. injection H as Hab Hrs. apply IH' in Hrs.
      subst b. rewrite Hrs, Z.sub_diag. reflexivity.
Qed.

Lemma mse_mismo (a : ndarray) :
  valores_uint8 a = true -> data a <> [] -> _mse mse_broadcast a a = Ok (Fin 0).
Proof.
  intros Ha Hne. rewrite mse_uint8; auto using cuadrados_no_vacio.
  do 2 f_equal. apply (Qred_int _ 0).
  assert (E : sumaZ (cuadrados (data a) (data a)) = 0%Z).
  { apply (proj2 (sumaZ_cuadrados_cero _ _ (valores_uint8_inv a Ha)
                    (valores_uint8_inv a Ha) eq_refl)). reflexivity. }
  rewrite E. unfold Qdiv. apply Qmult_0_l.
Qed.

(** X14: the error of an array of integers of [0, 255] against itself is
    exactly 0 when it has an element, and NaN when it has none. *)
Theorem mse_identico (a : ndarray) :
  valores_uint8 a = true ->
  (data a <> [] -> _mse mse_broadcast a a = Ok (Fin 0)) /\
  (data a = [] -> _mse mse_broadcast a a = Ok NaN).
Proof.
  intros Ha. split.
  - now apply mse_mismo.
  - intros He. unfold _mse. rewrite shape_eqb_refl, He. reflexivity.
Qed.

Lemma cuadrados_sim (l1 : list pyfloat) : forall l2, cuadrados l1 l2 = cuadrados l2 l1.
Proof.
  unfold cuadrados. induction l1 as [| x r IH]; intros [| y s]; cbn; try reflexivity.
  f_equal; [lia | apply IH].
Qed.

(** X15: on two arrays of integers of [0, 255] of one shape the error is
    symmetric. *)
Theorem mse_simetrico (a b : ndarray) :
  shape a = shape b -> valores_uint8 a = true -> valores_uint8 b = true ->
  _mse mse_broadcast a b = _mse mse_broadcast b a.
Proof.
  intros Hs Ha Hb.
  assert (Hc : cuadrados (data a) (data b) = [] \/ cuadrados (data a) (data b) <> [])
    by (destruct (cuadrados (data a) (data b)); [left | right]; congruence).
  destruct Hc as [Hc | Hc].
  - unfold _mse. rewrite Hs, shape_eqb_refl. cbv zeta.
    rewrite !(cuadrados_uint8 _ _ (valores_uint8_inv _ Ha) (valores_uint8_inv _ Hb)).
    rewrite !(cuadrados_uint8 _ _ (valores_uint8_inv _ Hb) (valores_uint8_inv _ Ha)).
    now rewrite (cuadrados_sim (data b)), Hc.
  - rewrite (mse_uint8 a b Hs Ha Hb Hc).
    rewrite (mse_uint8 b a (eq_sym Hs) Hb Ha) by (now rewrite cuadrados_sim).
    now rewrite (cuadrados_sim (data b)).
Qed.

(** X16: on two arrays of integers of [0, 255] of one shape and one number
    of elements, at least one, the error is a finite number that is not
    negative, and it is 0 exactly when the two arrays hold the same
    elements. *)
Theorem mse_cero_iguales (a b : ndarray) :
  shape a = shape b -> valores_uint8 a = true -> valores_uint8 b = true ->
  data a <> [] -> List.length (data a) = List.length (data b) ->
  exists m, _mse mse_broadcast a b = Ok (Fin m) /\ 0 <= m /\
            (m == 0 <-> data a = data b).
Proof.
  intros Hs Ha Hb Hne Hl.
  pose proof (cuadrados_no_vacio _ _ Hne Hl) as Hc.
  eexists. split; [now apply mse_uint8 |].
  set (S := sumaZ (cuadrados (data a) (data b))).
  set (n := Z.of_nat (List.length (cuadrados (data a) (data b)))).
  assert (Hn : (0 < n)%Z).
  { subst n. destruct (cuadrados (data a) (data b)); [congruence | cbn; lia]. }
  assert (Hq : 0 < inject_Z n) by (rewrite Zlt_Qlt in Hn; exact Hn).
  assert (HS : (0 <= S)%Z) by apply sumaZ_cuadrados.
  assert (HQ : 0 <= inject_Z S) by (rewrite Zle_Qle in HS; exact HS).
  rewrite Qred_correct. split.
  - apply Qle_shift_div_l; [exact Hq |]. now rewrite Qmult_0_l.
  - rewrite <- (sumaZ_cuadrados_cero (data a) (data b)
                  (valores_uint8_inv a Ha) (valores_uint8_inv b Hb) Hl).
    fold S. split.
    + intros E. assert (E' : inject_Z S == 0).
      { rewrite <- (Qmult_div_r (inject_Z S) (inject_Z n)) by lra.
        unfold Qdiv in *. rewrite Qmult_assoc, (Qmult_comm (inject_Z n)), <- Qmult_assoc.
        rewrite (Qmult_comm (inject_Z n)), Qmult_assoc.
        setoid_replace (inject_Z S * / inject_Z n) with 0 by exact E. ring. }
      apply (inject_Z_injective S 0) in E'. exact E'.
    + intros ->. unfold Qdiv. apply Qmult_0_l.
Qed.

(** X17: a [uint8] image that the HSV rule does not take (a value of
    channel 0 above 180) and that OpenCV's YCrCb round trip gives back
    unchanged is labelled "Lab/YCrCb", with the error 0 recorded for
    "YCrCb_mse", provided the Lab round trip answers an array of the same
    shape. *)
Theorem espacio_color_ciclo_sin_perdida (img b1 b2 rec_l : ndarray) :
  well_formed img = true -> dtype img = uint8 ->
  tres_canales img = true -> data img <> [] ->
  (exists x, In x (canal 0 (data img)) /\ fle x (of_Z 180) = false) ->
  cvtColor img COLOR_YCrCb2BGR = Ok b1 -> cvtColor b1 COLOR_BGR2YCrCb = Ok img ->
  cvtColor img COLOR_Lab2BGR = Ok b2 -> cvtColor b2 COLOR_BGR2Lab = Ok rec_l ->
  shape rec_l = shape img ->
  exists i,
    clasifica (Some img) = Ok i /\ espacio i = "Lab/YCrCb" /\
    In ("YCrCb_mse", Fin 0) (ciclos i).
Proof.
  intros Hw Hd Ht Hne (x & Hx & Hx180) Hy1 Hy2 Hl1 Hl2 Hs.
  destruct (espacio_color_tres img Hw Ht Hne)
    as (n0 & n1 & n2 & x0 & x1 & x2 & _ & _ & _ & F0 & _ & _ & ->).
  assert (E180 : fle x0 (of_Z 180) = false).
  { destruct (fle x0 (of_Z 180)) eqn:E; [| reflexivity].
    rewrite (proj1 (np_max_cota _ _ _ F0) E x Hx) in Hx180. discriminate. }
  assert (Hv : valores_uint8 img = true).
  { unfold well_formed in Hw. rewrite Hd in Hw. now apply andb_prop in Hw as [_ Hv]. }
  assert (Hc : exists ml,
             ciclos_lab_ycrcb cvtColor mse_broadcast cast_indefinido img = Ok (Fin 0, ml)).
  { unfold ciclos_lab_ycrcb, _ensure_u8_3c.
    destruct (tres_canales_ramas img Ht) as [_ ->]. rewrite Hd. cbn [dtype_eqb bind].
    rewrite Hy1. cbn [bind]. rewrite Hy2. cbn [bind].
    rewrite (mse_mismo img Hv Hne). cbn [bind].
    rewrite Hl1. cbn [bind]. rewrite Hl2. cbn [bind].
    unfold _mse at 1. rewrite Hs, shape_eqb_refl. cbn [bind]. eexists. reflexivity. }
  destruct Hc as [ml Hc].
  rewrite Hd, E180, Hc. cbn [dtype_eqb is_floating andb]. cbv zeta.
  replace (flt (Fin 0) (Fin (1 # 2))) with true by reflexivity. cbn [orb].
  eexists. split; [reflexivity |]. split; [reflexivity |].
  cbn [ciclos set_espacio set_ciclos]. left. reflexivity.
Qed.

(** *** Further properties of [modificar_canal] *)

(** X18: whatever the channel, the operation and the factor,
    [modificar_canal] answers a [uint8] array of the shape of the channel,
    with as many elements, each an integer of [0, 255]; a well-formed
    channel gives a well-formed array. *)
Theorem modificar_canal_salida (c : ndarray) (operacion : string) (factor : pyfloat) :
  dtype (modifica c operacion factor) = uint8 /\
  shape (modifica c operacion factor) = shape c /\
  List.length (data (modifica c operacion factor)) = List.length (data c) /\
  valores_uint8 (modifica c operacion factor) = true /\
  (well_formed c = true -> well_formed (modifica c operacion factor) = true).
Proof.
  assert (Hl : List.length (data (modifica c operacion factor)) = List.length (data c)).
  { unfold modificar_canal. cbn [data].
    destruct (String.eqb operacion "brillo"); [now rewrite !length_map |].
    destruct (String.eqb operacion "contraste"); [now rewrite !length_map |].
    destruct (String.eqb operacion "invertir"); now rewrite !length_map. }
  assert (Hv : valores_uint8 (modifica c operacion factor) = true).
  { unfold valores_uint8, modificar_canal. cbn [data].
    apply forallb_forall. intros y Hy. apply in_map_iff in Hy as (x & <- & _).
    apply astype_uint8_val. }
  repeat split; try assumption.
  intros Hw. unfold well_formed in *. apply andb_prop in Hw as [Hw _].
  rewrite Hl. change (shape (modifica c operacion factor)) with (shape c).
  rewrite Hw. exact Hv.
Qed.

Lemma brillo_valor (z : Z) (f : Q) :
  (0 <= z <= 255)%Z ->
  exists v, fmul (astype_float32 (of_Z z)) (Fin f) = Fin v /\ v == inject_Z z * f.
Proof.
  intros Hz. rewrite (astype_float32_uint8 z Hz).
  eexists. split; [reflexivity |]. now rewrite Qred_correct.
Qed.

Lemma brillo_datos (c : ndarray) (factor : pyfloat) :
  data (modifica c "brillo" factor) =
    map (fun x => astype_uint8 cast_indefinido
                    (np_clip 0 255 (fmul (astype_float32 x) factor))) (data c).
Proof.
  unfold modificar_canal. cbn [String.eqb Ascii.eqb Bool.eqb data].
  now rewrite !map_map.
Qed.

(** X19: brightness on a channel of integers of [0, 255]: with a factor of
    at least 1 no element decreases and none exceeds 255; with a factor
    between 0 and 1 no element increases; with factor 1.0 the elements come
    back as they were. *)
Theorem modificar_canal_brillo (c : ndarray) :
  valores_uint8 c = true ->
  (forall f : Q, 1 <= f ->
     Forall2 (fun x y => (valor x <= valor y <= 255)%Z)
             (data c) (data (modifica c "brillo" (Fin f)))) /\
  (forall f : Q, 0 <= f -> f <= 1 ->
     Forall2 (fun x y => (0 <= valor y <= valor x)%Z)
             (data c) (data (modifica c "brillo" (Fin f)))) /\
  modifica c "brillo" (Fin 1) = como_uint8 c.
Proof.
  intros H. pose proof (valores_uint8_inv c H) as Hv.
  assert (Hq : forall z, (0 <= z <= 255)%Z -> 0 <= inject_Z z).
  { intros z Hz. change 0 with (inject_Z 0). rewrite <- Zle_Qle. lia. }
  split; [| split].
  - intros f Hf. rewrite brillo_datos. apply Forall2_map_in. intros x Hx.
    destruct (Hv x Hx) as (z & -> & Hz).
    destruct (brillo_valor z f Hz) as (v & -> & Ev).
    destruct (clip_astype v) as (k & -> & Hk & Hlo & _).
    rewrite !valor_of_Z. split; [| lia].
    apply Hlo; [exact Hz |]. rewrite Ev.
    pose proof (Hq z Hz) as Hz0.
    assert (P : 0 <= inject_Z z * (f - 1)) by (apply Qmult_le_0_compat; lra).
    lra.
  - intros f Hf0 Hf1. rewrite brillo_datos. apply Forall2_map_in. intros x Hx.
    destruct (Hv x Hx) as (z & -> & Hz).
    destruct (brillo_valor z f Hz) as (v & -> & Ev).
    destruct (clip_astype v) as (k & -> & Hk & _ & Hhi).
    rewrite !valor_of_Z. split; [lia |].
    apply Hhi; [exact Hz |]. rewrite Ev.
    pose proof (Hq z Hz) as Hz0.
    assert (P : 0 <= inject_Z z * (1 - f)) by (apply Qmult_le_0_compat; lra).
    lra.
  - unfold como_uint8.
    change (modifica c "brillo" (Fin 1))
      with (mk_ndarray uint8 (shape c) (data (modifica c "brillo" (Fin 1)))).
    f_equal. rewrite brillo_datos. apply map_id_in. intros x Hx.
    destruct (Hv x Hx) as (z & -> & Hz).
    destruct (brillo_valor z 1 Hz) as (v & -> & Ev).
    cbn [np_clip]. apply astype_uint8_int; [| exact Hz].
    assert (Ev' : v == inject_Z z) by (rewrite Ev; ring).
    rewrite Qclip_dentro; [exact Ev' | |]; rewrite Ev'.
    + now apply Hq.
    + change 255 with (inject_Z 255). rewrite <- Zle_Qle. lia.
Qed.

(** X20: brightness with a factor that is a whole number [n] of
    [0, 2^24], which float32 holds exactly, multiplies every element of a
    channel of integers of [0, 255] by [n] and saturates at 255. *)
Theorem modificar_canal_brillo_entero (c : ndarray) (n : Z) :
  valores_uint8 c = true -> (0 <= n <= 16777216)%Z ->
  modifica c "brillo" (of_Z n) =
    mk_ndarray uint8 (shape c) (map (fun x => of_Z (Z.min 255 (n * valor x))) (data c)).
Proof.
  intros H Hn. pose proof (valores_uint8_inv c H) as Hv.
  change (modifica c "brillo" (of_Z n))
    with (mk_ndarray uint8 (shape c) (data (modifica c "brillo" (of_Z n)))).
  f_equal. rewrite brillo_datos. apply map_ext_in. intros x Hx.
  destruct (Hv x Hx) as (z & -> & Hz). rewrite valor_of_Z.
  rewrite (astype_float32_uint8 z Hz), fmul_of_Z.
  change (of_Z (z * n)) with (Fin (inject_Z (z * n))).
  rewrite clip_astype_floor. f_equal.
  unfold Qclip.
  assert (E0 : Qle_bool 0 (inject_Z (z * n)) = true).
  { apply Qle_bool_iff. change 0 with (inject_Z 0). rewrite <- Zle_Qle. nia. }
  rewrite E0. destruct (Qle_bool (inject_Z (z * n)) 255) eqn:E1.
  - apply Qle_bool_iff in E1. change 255 with (inject_Z 255) in E1.
    rewrite <- Zle_Qle in E1. rewrite Qfloor_Z. lia.
  - apply Qle_bool_false in E1. change 255 with (inject_Z 255) in E1.
    rewrite <- Zlt_Qlt in E1. change 255 with (inject_Z 255). rewrite Qfloor_Z. lia.
Qed.

Lemma extremos_decreciente (g : Z -> Z) (l : list Z) :
  l <> [] -> (forall y z, (y <= z)%Z -> (g z <= g y)%Z) ->
  maximo (map g l) = g (minimo l) /\ minimo (map g l) = g (maximo l).
Proof.
  intros Hl Hg.
  assert (Hm : map g l <> []) by (destruct l; [congruence | discriminate]).
  split; apply Z.le_antisymm.
  - apply maximo_le; [exact Hm |]. intros k Hk.
    apply in_map_iff in Hk as (z & <- & Hz). apply Hg. now apply minimo_cota.
  - apply maximo_cota. apply in_map. now apply minimo_In.
  - apply minimo_cota. apply in_map. now apply maximo_In.
  - apply minimo_ge; [exact Hm |]. intros k Hk.
    apply in_map_iff in Hk as (z & <- & Hz). apply Hg. now apply maximo_cota.
Qed.

(** X21: inversion on a channel of integers of [0, 255] stores 255 - x for
    every element x, whatever the factor, and keeps the spread (max - min)
    of the channel. *)
Theorem modificar_canal_invertir (c : ndarray) (factor : pyfloat) :
  valores_uint8 c = true ->
  modifica c "invertir" factor =
    mk_ndarray uint8 (shape c) (map (fun x => of_Z (255 - valor x)) (data c)) /\
  dispersion (modifica c "invertir" factor) = dispersion c.
Proof.
  intros H. pose proof (valores_uint8_inv c H) as Hv.
  assert (E : modifica c "invertir" factor =
              mk_ndarray uint8 (shape c) (map (fun x => of_Z (255 - valor x)) (data c))).
  { unfold modificar_canal. cbn [String.eqb Ascii.eqb Bool.eqb]. f_equal.
    rewrite !map_map. apply map_ext_in. intros x Hx.
    destruct (Hv x Hx) as (z & -> & Hz). rewrite valor_of_Z. now apply invertir_uint8. }
  split; [exact E |]. rewrite E. unfold dispersion. cbn [data].
  rewrite map_map.
  replace (map (fun x => valor (of_Z (255 - valor x))) (data c))
    with (map (fun z => (255 - z)%Z) (map valor (data c)))
    by (rewrite map_map; apply map_ext; intros x; now rewrite valor_of_Z).
  assert (Hl : map valor (data c) = [] \/ map valor (data c) <> [])
    by (destruct (map valor (data c)); [left | right]; congruence).
  destruct Hl as [-> | Hl]; [reflexivity |].
  destruct (extremos_decreciente (fun z => (255 - z)%Z) _ Hl) as [-> ->]; [intros; lia |].
  lia.
Qed.

(** X22: contrast with factor 0 flattens a channel of integers of
    [0, 255]: every element of the result is the same, the spread is 0. *)
Theorem modificar_canal_contraste_cero (c : ndarray) :
  valores_uint8 c = true ->
  dispersion (modifica c "contraste" (Fin 0)) = 0%Z.
Proof.
  intros H. pose proof (valores_uint8_inv c H) as Hv.
  destruct c as [d sh l]. cbn [dtype shape data] in *.
  assert (Hl : l = [] \/ l <> []) by (destruct l; [left | right]; congruence).
  destruct Hl as [-> | Hl]; [reflexivity |].
  destruct (media_uint8 l Hl Hv) as (m & Hm & _).
  unfold modificar_canal, dispersion.
  cbn [String.eqb Ascii.eqb Bool.eqb shape data]. rewrite Hm, !map_map.
  destruct (contraste_extremos l m 0 Hl ltac:(lra) Hv) as [-> ->].
  destruct (extremos_uint8 l Hl Hv) as (Bmin & Bmax & _ & _ & _).
  assert (G : forall y z, (0 <= y <= 255)%Z -> (0 <= z <= 255)%Z ->
              (contraste_de m 0 (of_Z y) <= contraste_de m 0 (of_Z z))%Z).
  { intros y z Hy Hz.
    destruct (contraste_valor y m 0 Hy) as (v & -> & Ev).
    destruct (contraste_valor z m 0 Hz) as (w & -> & Ew).
    apply clip_astype_mono. rewrite Ev, Ew. lra. }
  pose proof (G (maximo (map valor l)) (minimo (map valor l)) Bmax Bmin).
  pose proof (G (minimo (map valor l)) (maximo (map valor l)) Bmin Bmax).
  lia.
Qed.

End Propiedades.

(** ** The theorems on concrete arrays *)

(** The stand-in answers [COLOR_BGR2HSV] as OpenCV is asked to. *)
Lemma cvtColor_negro_bgr2hsv : cv2_bgr2hsv cvtColor_negro.
Proof.
  intros src Hu Ht Hd. unfold cvtColor_negro.
  unfold es_uint8 in Hu. apply andb_prop in Hu as [-> _].
  unfold tres_canales in Ht. apply andb_prop in Ht as [-> ->].
  destruct (data src) as [| x r] eqn:E; [congruence |].
  cbn. eexists. split; reflexivity.
Qed.

(** The array filled with 0.5 is of dtype float64 and is not labelled
    "BGR/RGB". *)
Lemma espacio_color_flotante_nunca_bgr_ejemplo :
  exists i,
    espacio_color cvtColor_negro sin_broadcast cast_cero (Some imagen_05) = Ok i /\
    espacio i <> "BGR/RGB".
Proof.
  eexists. split.
  - vm_compute. reflexivity.
  - apply (proj2 (espacio_color_flotante_nunca_bgr cvtColor_negro sin_broadcast cast_cero)
             imagen_05).
    + reflexivity.
    + vm_compute. reflexivity.
Defined.

(** The invariants on the classification of the pixel (200, 10, 10). *)
Lemma espacio_color_invariantes_ejemplo :
  In "BGR/RGB" etiquetas /\
  (forall r k lo hi,
      Some [("C0", (of_Z 200, of_Z 200)); ("C1", (of_Z 10, of_Z 10));
            ("C2", (of_Z 10, of_Z 10))] = Some r ->
      In (k, (lo, hi)) r -> fle lo hi = true).
Proof.
  destruct (espacio_color_invariantes cvtColor_error sin_broadcast cast_cero
              (Some pixel_azul)
              (mk_info "BGR/RGB" (Some "uint8") (Some [1; 1; 3]%nat)
                 (Some [("C0", (of_Z 200, of_Z 200)); ("C1", (of_Z 10, of_Z 10));
                        ("C2", (of_Z 10, of_Z 10))]) [])
              eq_refl) as [H1 H2].
  split.
  - exact H1.
  - exact (H2 pixel_azul eq_refl eq_refl).
Defined.

(** The pixel (200, 10, 10) is classified, with OpenCV answering and with
    OpenCV refusing every conversion. *)
Lemma espacio_color_no_lanza_ejemplo :
  (exists i, espacio_color cvtColor_negro sin_broadcast cast_cero (Some pixel_azul) = Ok i) /\
  (exists i,
      espacio_color cvtColor_error sin_broadcast cast_cero (Some pixel_azul) = Ok i /\
      espacio i = "BGR/RGB" /\ ciclos i = []).
Proof.
  split.
  - apply (proj1 (proj2 (espacio_color_no_lanza cvtColor_negro sin_broadcast cast_cero))).
    + reflexivity.
    + discriminate.
  - destruct (proj2 (proj2 (espacio_color_no_lanza cvtColor_error sin_broadcast cast_cero))
                pixel_azul (cv2_error "cvtColor: unsupported") eq_refl
                ltac:(discriminate) eq_refl eq_refl)
      as (x0 & x1 & x2 & i0 & E0 & E1 & E2 & Hl & Hc & [H | H]).
    + exfalso. vm_compute in H. discriminate H.
    + eexists. split; [exact H |].
      injection E0 as <-. injection E1 as <-. injection E2 as <-. split.
      * reflexivity.
      * rewrite (proj1 (proj2 (bgr_por_defecto_campos _ _ _))). exact Hc.
Defined.

(** The channel [[0, 255]] is labelled "GRAY" with the range (0, 255). *)
Lemma espacio_color_gris_ejemplo :
  espacio_color cvtColor_negro sin_broadcast cast_cero (Some canal_extremos) =
    Ok (mk_info "GRAY" (Some "uint8") (Some [1; 2]%nat)
          (Some [("Canal", (of_Z 0, of_Z 255))]) []).
Proof.
  destruct (espacio_color_gris cvtColor_negro sin_broadcast cast_cero canal_extremos
              eq_refl ltac:(discriminate))
    as (mn & mx & Hmn & Hmx & H & _).
  injection Hmn as <-. injection Hmx as <-. exact H.
Defined.


(** The pixel (200, 10, 10), labelled "BGR/RGB", converts to HSV. *)
Lemma convertir_espacio_color_tabla_ejemplo :
  exists dst h w,
    convertir_espacio_color cvtColor_negro sin_broadcast cast_cero (Some pixel_azul) "HSV"
      = Ok dst /\
    shape pixel_azul = [h; w; 3%nat] /\ shape dst = [h; w; 3%nat].
Proof.
  eapply (proj2 (proj2 (proj2 (proj2 (proj2
            (convertir_espacio_color_tabla cvtColor_negro sin_broadcast cast_cero)))))).
  - exact cvtColor_negro_bgr2hsv.
  - reflexivity.
  - vm_compute. reflexivity.
  - reflexivity.
Defined.

(** Inverting [[0, 255]] twice. *)
Lemma modificar_canal_invertir_dos_veces_ejemplo :
  modificar_canal cast_cero
    (modificar_canal cast_cero canal_extremos "invertir" (Fin (3 # 2)))
    "invertir" (Fin (3 # 2)) = canal_extremos.
Proof.
  apply (proj2 (modificar_canal_invertir_dos_veces cast_cero canal_extremos
                  (Fin (3 # 2)) (Fin (3 # 2)) eq_refl)).
  reflexivity.
Defined.


(** The unknown operation "gamma" on [[0, 255]], and on the [float64]
    channel [[1.99999999]], whose copy to [float32] is 2.0. *)
Lemma modificar_canal_otra_operacion_ejemplo :
  modificar_canal cast_cero canal_extremos "gamma" (Fin (3 # 2)) = canal_extremos /\
  modificar_canal cast_cero canal_casi_dos "gamma" (Fin (3 # 2)) =
    mk_ndarray uint8 [1; 1]%nat [of_Z 2].
Proof.
  split.
  - apply (proj1 (proj2 (proj2 (modificar_canal_otra_operacion cast_cero canal_extremos
                                  "gamma" (Fin (3 # 2))
                                  ltac:(discriminate) ltac:(discriminate)
                                  ltac:(discriminate))))).
    reflexivity.
  - rewrite (proj1 (modificar_canal_otra_operacion cast_cero canal_casi_dos
                      "gamma" (Fin (3 # 2))
                      ltac:(discriminate) ltac:(discriminate) ltac:(discriminate))).
    reflexivity.
Defined.

(** ** Where the statements of the specification fail *)

(** C2: an array with no element makes [espacio_color] raise, two-dimensional
    or with three channels. *)
Lemma espacio_color_lanza_sin_elementos :
  (forall cvtColor mse_broadcast cast_indefinido,
      espacio_color cvtColor mse_broadcast cast_indefinido (Some vacia_2d) =
        Raise (ValueError
                 "zero-size array to reduction operation minimum which has no identity")) /\
  (forall cvtColor mse_broadcast cast_indefinido,
      espacio_color cvtColor mse_broadcast cast_indefinido (Some vacia_3c) =
        Raise (ValueError
                 "zero-size array to reduction operation minimum which has no identity")).
Proof.
  split; intros; vm_compute; reflexivity.
Qed.

(** C3: on [[0.125, 0.5]] the range recorded is (0.12, 0.5) while the least
    element is 0.125. *)
Lemma espacio_color_gris_redondea :
  (forall cvtColor mse_broadcast cast_indefinido,
      espacio_color cvtColor mse_broadcast cast_indefinido (Some gris_octavo) =
        Ok (mk_info "GRAY" (Some "float64") (Some [1; 2]%nat)
              (Some [("Canal", (Fin (3 # 25), Fin (1 # 2)))]) [])) /\
  es_minimo (Fin (1 # 8)) (data gris_octavo) /\
  es_maximo (Fin (1 # 2)) (data gris_octavo) /\
  fle (Fin (1 # 8)) (Fin (3 # 25)) = false.
Proof.
  split; [intros; vm_compute; reflexivity |].
  split; [| split; [| reflexivity]].
  - split; [now left |]. intros x [<- | [<- | []]]; reflexivity.
  - split; [now right; left |]. intros x [<- | [<- | []]]; reflexivity.
Qed.



(** C8: on [[nan]] the range recorded is (nan, nan), and nan <= nan is
    false. *)
Lemma espacio_color_rango_nan :
  (forall cvtColor mse_broadcast cast_indefinido,
      espacio_color cvtColor mse_broadcast cast_indefinido (Some gris_nan) =
        Ok (mk_info "GRAY" (Some "float64") (Some [1; 1]%nat)
              (Some [("Canal", (NaN, NaN))]) [])) /\
  fle NaN NaN = false.
Proof.
  split; [intros; vm_compute; reflexivity | reflexivity].
Qed.

(** ** Further theorems on concrete arrays *)

(** The float pixel (0, 0.5, 1) normalises to a well-formed [uint8] pixel. *)
Lemma ensure_u8_3c_salida_ejemplo :
  es_uint8 (mk_ndarray uint8 [1; 1; 3]%nat [of_Z 0; of_Z 128; of_Z 255]) = true /\
  well_formed (mk_ndarray uint8 [1; 1; 3]%nat [of_Z 0; of_Z 128; of_Z 255]) = true.
Proof.
  destruct (ensure_u8_3c_salida cast_cero pixel_unidad
              (mk_ndarray uint8 [1; 1; 3]%nat [of_Z 0; of_Z 128; of_Z 255])
              eq_refl eq_refl) as (H1 & _ & _ & H2).
  split; assumption.
Defined.

(** Normalising the normalised pixel changes nothing. *)
Lemma ensure_u8_3c_idempotente_ejemplo :
  _ensure_u8_3c cast_cero (mk_ndarray uint8 [1; 1; 3]%nat [of_Z 0; of_Z 128; of_Z 255]) =
    Ok (mk_ndarray uint8 [1; 1; 3]%nat [of_Z 0; of_Z 128; of_Z 255]).
Proof.
  apply (ensure_u8_3c_idempotente cast_cero pixel_unidad). reflexivity.
Defined.

(** The pixel (0, 0.5, 1) is quantised within 1/255. *)
Lemma ensure_u8_3c_cuantiza_ejemplo :
  exists out,
    _ensure_u8_3c cast_cero pixel_unidad = Ok out /\ shape out = shape pixel_unidad /\
    Forall2 (fun x y =>
               exists k, y = of_Z k /\ (0 <= k <= 255)%Z /\
                         Qabs (inject_Z k / 255 - racional x) <= 1 # 255)
            (data pixel_unidad) (data out).
Proof.
  apply ensure_u8_3c_cuantiza.
  - reflexivity.
  - discriminate.
  - discriminate.
  - reflexivity.
Defined.

(** The float pixel (0, 1, 200) keeps its integers; (0, 1, 1) is scaled. *)
Lemma ensure_u8_3c_enteros_ejemplo :
  _ensure_u8_3c cast_cero pixel_entero = Ok (como_uint8 pixel_entero) /\
  _ensure_u8_3c cast_cero pixel_binario =
    Ok (mk_ndarray uint8 [1; 1; 3]%nat [of_Z 0; of_Z 255; of_Z 255]).
Proof.
  split.
  - apply (proj1 (ensure_u8_3c_enteros cast_cero pixel_entero eq_refl
                    ltac:(discriminate) eq_refl)).
    exists (of_Z 200). split; [right; right; left; reflexivity | vm_compute; discriminate].
  - apply (proj2 (ensure_u8_3c_enteros cast_cero pixel_binario eq_refl
                    ltac:(discriminate) eq_refl)).
    + discriminate.
    + intros x [<- | [<- | [<- | []]]]; vm_compute; discriminate.
Defined.

(** The pixel (200, 10, 10) is not labelled "HSV": 200 is above 180. *)
Lemma espacio_color_uint8_ejemplo :
  exists i,
    espacio_color cvtColor_negro sin_broadcast cast_cero (Some pixel_azul) = Ok i /\
    (espacio i = "HSV" \/ espacio i = "Lab/YCrCb" \/ espacio i = "BGR/RGB") /\
    (espacio i = "HSV" <->
     forall x, In x (canal 0 (data pixel_azul)) -> fle x (of_Z 180) = true) /\
    (espacio i = "HSV" -> ciclos i = []).
Proof.
  apply espacio_color_uint8.
  - reflexivity.
  - reflexivity.
  - reflexivity.
  - discriminate.
Defined.

(** The float pixel (0, 0.5, 1) is labelled "HSV" and does not convert to
    HSV. *)
Lemma espacio_color_hsv_flotante_ejemplo :
  (exists i,
      espacio_color cvtColor_negro sin_broadcast cast_cero (Some pixel_unidad) = Ok i /\
      espacio i = "HSV" /\ ciclos i = []) /\
  convertir_espacio_color cvtColor_negro sin_broadcast cast_cero (Some pixel_unidad) "HSV" =
    Raise (ValueError "Conversión no soportada: HSV -> HSV").
Proof.
  apply (proj2 (espacio_color_hsv_flotante cvtColor_negro sin_broadcast cast_cero
                  pixel_unidad eq_refl eq_refl eq_refl ltac:(discriminate))).
  reflexivity.
Defined.

(** What the classification of the pixel (200, 10, 10) records. *)
Lemma espacio_color_campos_ejemplo :
  info_dtype info_pixel_azul = Some "uint8" /\
  info_shape info_pixel_azul = Some [1; 1; 3]%nat /\
  exists r0 r1 r2, rangos info_pixel_azul = Some [("C0", r0); ("C1", r1); ("C2", r2)].
Proof.
  destruct (espacio_color_campos cvtColor_error sin_broadcast cast_cero
              pixel_azul info_pixel_azul eq_refl) as (H1 & H2 & _ & H3 & _).
  split; [exact H1 |]. split; [exact H2 |]. exact (H3 eq_refl).
Defined.

(** With OpenCV giving every array back, the pixel (200, 10, 10) is
    labelled "Lab/YCrCb" and both cycle errors are recorded. *)
Lemma espacio_color_ciclos_ejemplo :
  exists ey el,
    ciclos info_pixel_azul_ciclo = [("YCrCb_mse", ey); ("Lab_mse", el)] /\
    (fle ey (Fin (1 # 2)) = true \/ fle el (Fin (1 # 2)) = true).
Proof.
  apply (proj2 (proj2 (espacio_color_ciclos cvtColor_identidad sin_broadcast cast_cero
                         (Some pixel_azul) info_pixel_azul_ciclo eq_refl))).
  reflexivity.
Defined.

(** The pixel (200, 10, 10), labelled "BGR/RGB", does not convert to
    BGR/RGB. *)
Lemma convertir_mismo_espacio_ejemplo :
  convertir_espacio_color cvtColor_error sin_broadcast cast_cero (Some pixel_azul) "BGR/RGB" =
    Raise (ValueError "Conversión no soportada: BGR/RGB -> BGR/RGB").
Proof.
  apply (convertir_mismo_espacio cvtColor_error sin_broadcast cast_cero
           (Some pixel_azul) info_pixel_azul eq_refl).
Defined.

(** Labelled "Lab/YCrCb", the pixel converts to nothing. *)
Lemma convertir_lab_ycrcb_ejemplo :
  convertir_espacio_color cvtColor_identidad sin_broadcast cast_cero (Some pixel_azul)
    "BGR/RGB" = Raise (ValueError "Conversión no soportada: Lab/YCrCb -> BGR/RGB").
Proof.
  apply (proj1 (convertir_lab_ycrcb cvtColor_identidad sin_broadcast cast_cero
                  (Some pixel_azul) info_pixel_azul_ciclo eq_refl) eq_refl).
Defined.

(** The channel [[0, 255]] goes to OpenCV for BGR/RGB and is refused for
    HSV. *)
Lemma convertir_gris_ejemplo :
  convertir_espacio_color cvtColor_identidad sin_broadcast cast_cero (Some canal_extremos)
    "BGR/RGB" = Ok canal_extremos /\
  convertir_espacio_color cvtColor_identidad sin_broadcast cast_cero (Some canal_extremos)
    "HSV" = Raise (ValueError "Conversión no soportada: GRAY -> HSV").
Proof.
  destruct (convertir_gris cvtColor_identidad sin_broadcast cast_cero canal_extremos
              eq_refl ltac:(discriminate)) as [H1 H2].
  split; [exact H1 |]. apply H2. discriminate.
Defined.

(** An array of shape (1, 1, 4) is refused. *)
Lemma convertir_rechazo_estructural_ejemplo :
  convertir_espacio_color cvtColor_identidad sin_broadcast cast_cero (Some pixel_rgba)
    "BGR/RGB" = Raise (ValueError "Conversión no soportada: Desconocido -> BGR/RGB").
Proof.
  apply convertir_rechazo_estructural.
  - discriminate.
  - reflexivity.
Defined.

(** The routes of the pixel (200, 10, 10), labelled "BGR/RGB". *)
Lemma convertir_rutas_ejemplo :
  convertir_espacio_color cvtColor_error sin_broadcast cast_cero (Some pixel_azul) "Lab" =
    cvtColor_error pixel_azul COLOR_BGR2Lab /\
  convertir_espacio_color cvtColor_error sin_broadcast cast_cero (Some pixel_azul) "YCrCb" =
    Raise (ValueError "Conversión no soportada: BGR/RGB -> YCrCb").
Proof.
  destruct (proj1 (convertir_rutas cvtColor_error sin_broadcast cast_cero
                     pixel_azul info_pixel_azul eq_refl) eq_refl)
    as (_ & H1 & _ & H2).
  split; [exact H1 |]. apply H2; discriminate.
Defined.

(** The error of the pixel (200, 10, 10) against itself. *)
Lemma mse_identico_ejemplo :
  _mse sin_broadcast pixel_azul pixel_azul = Ok (Fin 0).
Proof.
  apply (proj1 (mse_identico sin_broadcast pixel_azul eq_refl)). discriminate.
Defined.

(** The errors of two pixels, one way and the other. *)
Lemma mse_simetrico_ejemplo :
  _mse sin_broadcast pixel_azul pixel_rojo = _mse sin_broadcast pixel_rojo pixel_azul.
Proof.
  apply mse_simetrico; reflexivity.
Defined.

(** The error of two different pixels is a positive number. *)
Lemma mse_cero_iguales_ejemplo :
  exists m, _mse sin_broadcast pixel_azul pixel_rojo = Ok (Fin m) /\ 0 <= m /\
            (m == 0 <-> data pixel_azul = data pixel_rojo).
Proof.
  apply mse_cero_iguales.
  - reflexivity.
  - reflexivity.
  - reflexivity.
  - discriminate.
  - reflexivity.
Defined.

(** With OpenCV giving every array back, the pixel (200, 10, 10) is
    labelled "Lab/YCrCb". *)
Lemma espacio_color_ciclo_sin_perdida_ejemplo :
  exists i,
    espacio_color cvtColor_identidad sin_broadcast cast_cero (Some pixel_azul) = Ok i /\
    espacio i = "Lab/YCrCb" /\ In ("YCrCb_mse", Fin 0) (ciclos i).
Proof.
  apply (espacio_color_ciclo_sin_perdida cvtColor_identidad sin_broadcast cast_cero
           pixel_azul pixel_azul pixel_azul pixel_azul).
  - reflexivity.
  - reflexivity.
  - reflexivity.
  - discriminate.
  - exists (of_Z 200). split; [left; reflexivity | reflexivity].
  - reflexivity.
  - reflexivity.
  - reflexivity.
  - reflexivity.
  - reflexivity.
Defined.

(** Brightness with factor 1.5 on the channel [[100, 200]] gives a
    well-formed [uint8] channel. *)
Lemma modificar_canal_salida_ejemplo :
  well_formed (modificar_canal cast_cero canal_100_200 "brillo" (Fin (3 # 2))) = true.
Proof.
  apply (modificar_canal_salida cast_cero canal_100_200 "brillo" (Fin (3 # 2))).
  reflexivity.
Defined.

(** Brightness with factor 1.5 on [[100, 200]] decreases no element. *)
Lemma modificar_canal_brillo_ejemplo :
  Forall2 (fun x y => (valor x <= valor y <= 255)%Z)
          (data canal_100_200)
          (data (modificar_canal cast_cero canal_100_200 "brillo" (Fin (3 # 2)))).
Proof.
  apply (proj1 (modificar_canal_brillo cast_cero canal_100_200 eq_refl)).
  unfold Qle. simpl. lia.
Defined.

(** Brightness with factor 2 on [[100, 200]] gives [[200, 255]]. *)
Lemma modificar_canal_brillo_entero_ejemplo :
  modificar_canal cast_cero canal_100_200 "brillo" (of_Z 2) =
    mk_ndarray uint8 [1; 2]%nat [of_Z 200; of_Z 255].
Proof.
  apply (modificar_canal_brillo_entero cast_cero canal_100_200 2 eq_refl). lia.
Defined.

(** Inversion of [[0, 1]] gives [[255, 254]], of the same spread. *)
Lemma modificar_canal_invertir_ejemplo :
  modificar_canal cast_cero canal_01 "invertir" (Fin (3 # 2)) =
    mk_ndarray uint8 [1; 2]%nat [of_Z 255; of_Z 254] /\
  dispersion (modificar_canal cast_cero canal_01 "invertir" (Fin (3 # 2))) = dispersion canal_01.
Proof.
  apply (modificar_canal_invertir cast_cero canal_01 (Fin (3 # 2))). reflexivity.
Defined.

(** Contrast with factor 0 flattens [[0, 255]]. *)
Lemma modificar_canal_contraste_cero_ejemplo :
  dispersion (modificar_canal cast_cero canal_extremos "contraste" (Fin 0)) = 0%Z.
Proof.
  apply modificar_canal_contraste_cero. reflexivity.
Defined.
